(** * AIRecruimentAPI: the scoring clients and the application pipeline

    A shallow embedding of
      - src/config/groq.js            ([evaluateCV]),
      - config/gemini.js              ([normalizeEvaluation], [evaluateCVWithText]),
      - utils/database.js             ([query], [transaction]),
      - src/routes/applications.js    (POST /, PUT /:id, DELETE /:id),
      - src/routes/evaluations.js     (POST /reevaluate),
      - the error middleware of server.js,
    and the theorems that settle the claims made about them. *)

From Stdlib Require Import ZArith String Ascii List Bool Lia DecimalString DecimalPos.
From stdpp Require Import base option list gmap strings.

Set Warnings "-register-all".
Local Open Scope string_scope.
Local Open Scope list_scope.

(** ** JavaScript values as [JSON.parse] produces them *)

Module JS.

(** [JNum n] is the Number whose value is the integer [n]. Numbers with a
    fractional part are not represented. An absent property ([undefined]) is
    [None] at type [option jsval]. *)
Inductive jsval : Type :=
| JNull
| JBool (b : bool)
| JNum (n : Z)
| JStr (s : string)
| JArr (items : list jsval)
| JObj (fields : list (string * jsval)).

(** What [parseInt], [Math.min] and [Math.max] return: an integer or [NaN].
    [Int z] stands for the Number nearest to [z]; rounding is monotone and
    fixes 0 and 100, so clamping commutes with it. *)
Inductive number : Type :=
| NaN
| Int (z : Z).

(** A thrown [Error], identified by its message. *)
Definition error := string.

Inductive outcome (A : Type) : Type :=
| Return (a : A)
| Throw (e : error).
Arguments Return {A} a.
Arguments Throw {A} e.

Definition bind {A B} (m : outcome A) (k : A -> outcome B) : outcome B :=
  match m with
  | Return a => k a
  | Throw e => Throw e
  end.

(** [try { body } catch (e) { handler e }] *)
Definition try_catch {A} (body : outcome A) (handler : error -> outcome A) : outcome A :=
  match body with
  | Return a => Return a
  | Throw e => handler e
  end.

Declare Scope js_scope.
Delimit Scope js_scope with js.
Notation "x <- m ;; k" := (bind m (fun x => k))
  (at level 100, m at next level, right associativity) : js_scope.
Notation "m ;;; k" := (bind m (fun _ => k))
  (at level 100, right associativity) : js_scope.

(** *** Truthiness, [typeof], property access *)

(** [!!v] *)
Definition truthy (v : jsval) : bool :=
  match v with
  | JNull => false
  | JBool b => b
  | JNum n => negb (n =? 0)%Z
  | JStr s => negb (s =? "")
  | JArr _ => true
  | JObj _ => true
  end.

Definition truthy_opt (v : option jsval) : bool :=
  match v with
  | None => false
  | Some v => truthy v
  end.

(** [typeof v === 'object'] *)
Definition typeof_object (v : jsval) : bool :=
  match v with
  | JNull | JArr _ | JObj _ => true
  | _ => false
  end.

(** [Array.isArray] *)
Definition isArray (v : option jsval) : bool :=
  match v with
  | Some (JArr _) => true
  | _ => false
  end.

Fixpoint lookup_field (key : string) (fields : list (string * jsval)) : option jsval :=
  match fields with
  | [] => None
  | (k, v) :: rest => if k =? key then Some v else lookup_field key rest
  end.

(** [v.key] for the keys the clients read ([score], [strengths], [weaknesses],
    [summary]): a [TypeError] on [null], the own property of an object,
    [undefined] on every other value. *)
Definition get (v : jsval) (key : string) : outcome (option jsval) :=
  match v with
  | JNull => Throw "Cannot read properties of null"
  | JObj fields => Return (lookup_field key fields)
  | _ => Return None
  end.

(** [key in v], for [v] an array or an object and the same keys. *)
Definition has_key (key : string) (v : jsval) : bool :=
  match v with
  | JObj fields => bool_decide (is_Some (lookup_field key fields))
  | _ => false
  end.

(** *** Strings *)

Definition is_white_space (c : ascii) : bool :=
  let n := nat_of_ascii c in
  (n =? 32)%nat || ((9 <=? n)%nat && (n <=? 13)%nat).

(** A string is the UTF-8 bytes of the JavaScript text. [units c] is what the
    byte [c] adds to the count of UTF-16 code units: a continuation byte
    nothing, the first byte of a four-byte sequence the two units of a
    surrogate pair, any other byte one. *)
Definition units (c : ascii) : nat :=
  let n := nat_of_ascii c in
  if (n <? 128)%nat then 1
  else if (n <? 192)%nat then 0
  else if (n <? 240)%nat then 1
  else 2.

(** [s.length] *)
Fixpoint code_units (s : string) : nat :=
  match s with
  | EmptyString => 0
  | String c rest => units c + code_units rest
  end.

(** [s.trimStart()], for the white space of ASCII. *)
Fixpoint trimStart (s : string) : string :=
  match s with
  | String c rest => if is_white_space c then trimStart rest else s
  | EmptyString => EmptyString
  end.

Fixpoint rev_append (s acc : string) : string :=
  match s with
  | EmptyString => acc
  | String c rest => rev_append rest (String c acc)
  end.

Definition reverse (s : string) : string := rev_append s "".

(** [s.trim()], for the white space of ASCII; JavaScript also strips the
    white space beyond it (U+00A0, U+2028, ...). *)
Definition trim (s : string) : string :=
  reverse (trimStart (reverse (trimStart s))).

Definition lower (c : ascii) : ascii :=
  let n := nat_of_ascii c in
  if (65 <=? n)%nat && (n <=? 90)%nat then ascii_of_nat (n + 32) else c.

(** [s.toLowerCase()], for the letters of ASCII. *)
Fixpoint toLowerCase (s : string) : string :=
  match s with
  | EmptyString => EmptyString
  | String c rest => String (lower c) (toLowerCase rest)
  end.

Fixpoint startsWith (s p : string) : bool :=
  match p, s with
  | EmptyString, _ => true
  | String a p', String b s' => Ascii.eqb a b && startsWith s' p'
  | String _ _, EmptyString => false
  end.

(** [label] between double quotes. *)
Definition quoted (label : string) : string :=
  let q := String (ascii_of_nat 34) EmptyString in q +:+ label +:+ q.

(** [s.includes(p)] *)
Fixpoint includes (s p : string) : bool :=
  startsWith s p ||
  match s with
  | EmptyString => false
  | String _ rest => includes rest p
  end.

(** The match of the regular expression [/\{[\s\S]*\}/]: from the first
    opening brace to the last closing brace after it. *)
Fixpoint from_first_open (s : string) : option string :=
  match s with
  | EmptyString => None
  | String c rest => if Ascii.eqb c "{" then Some rest else from_first_open rest
  end.

Fixpoint up_to_last_close (s : string) : option string :=
  match s with
  | EmptyString => None
  | String c rest =>
      match up_to_last_close rest with
      | Some t => Some (String c t)
      | None => if Ascii.eqb c "}" then Some (String c EmptyString) else None
      end
  end.

Definition match_braces (s : string) : option string :=
  match from_first_open s with
  | Some rest => String "{" <$> up_to_last_close rest
  | None => None
  end.

(** *** [ToString] and [parseInt] *)

Fixpoint strip_zeros (s : string) : string :=
  match s with
  | String c rest => if Ascii.eqb c "0" then strip_zeros rest else s
  | EmptyString => EmptyString
  end.

Definition decimal (n : Z) : string := NilZero.string_of_int (Z.to_int n).

(** [String(n)] for an integral Number: the plain numeral below 10^21, the
    exponent form from there on. The digits of the exponent form are those
    of [n], where JavaScript prints the shortest digits that read back as
    the same double: statements that depend on the digits keep below
    10^21. *)
Definition number_to_string (n : Z) : string :=
  if (Z.abs n <? 10 ^ 21)%Z then decimal n
  else
    let sign := if (n <? 0)%Z then "-" else "" in
    match decimal (Z.abs n) with
    | String d rest =>
        let frac := reverse (strip_zeros (reverse rest)) in
        sign +:+ String d (if frac =? "" then "" else "." +:+ frac)
             +:+ "e+" +:+ decimal (Z.of_nat (String.length rest))
    | EmptyString => "0"
    end.

Definition join (sep : string) (parts : list string) : string :=
  String.concat sep parts.

(** [String(v)] *)
Fixpoint ToString (v : jsval) : string :=
  match v with
  | JNull => "null"
  | JBool true => "true"
  | JBool false => "false"
  | JNum n => number_to_string n
  | JStr s => s
  | JArr items =>
      join "," (map (fun item => match item with
                                 | JNull => ""
                                 | _ => ToString item
                                 end) items)
  | JObj _ => "[object Object]"
  end.

Definition ToString_opt (v : option jsval) : string :=
  match v with
  | None => "undefined"
  | Some v => ToString v
  end.

Definition digit_value (radix : Z) (c : ascii) : option Z :=
  let n := Z.of_nat (nat_of_ascii c) in
  let d := if (48 <=? n)%Z && (n <=? 57)%Z then Some (n - 48)%Z
           else if (97 <=? n)%Z && (n <=? 122)%Z then Some (n - 87)%Z
           else if (65 <=? n)%Z && (n <=? 90)%Z then Some (n - 55)%Z
           else None in
  match d with
  | Some d => if (d <? radix)%Z then Some d else None
  | None => None
  end.

(** The longest prefix of digits, most significant first. *)
Fixpoint parse_digits (radix : Z) (s : string) (acc : option Z) : option Z :=
  match s with
  | EmptyString => acc
  | String c rest =>
      match digit_value radix c with
      | Some d => parse_digits radix rest (Some (default 0%Z acc * radix + d)%Z)
      | None => acc
      end
  end.

(** [parseInt(s)] with no radix argument. *)
Definition parseInt_string (s : string) : number :=
  let s := trimStart s in
  let '(sign, s) :=
    match s with
    | String "-" rest => ((-1)%Z, rest)
    | String "+" rest => (1%Z, rest)
    | _ => (1%Z, s)
    end in
  let '(radix, s) :=
    if startsWith s "0x" || startsWith s "0X"
    then (16%Z, match s with String _ (String _ rest) => rest | _ => s end)
    else (10%Z, s) in
  match parse_digits radix s None with
  | Some n => Int (sign * n)
  | None => NaN
  end.

Definition parseInt (v : option jsval) : number := parseInt_string (ToString_opt v).

(** [Math.min(a, x)] and [Math.max(a, x)] with an integer first argument. *)
Definition Math_min (a : Z) (x : number) : number :=
  match x with
  | NaN => NaN
  | Int z => Int (Z.min a z)
  end.

Definition Math_max (a : Z) (x : number) : number :=
  match x with
  | NaN => NaN
  | Int z => Int (Z.max a z)
  end.

(** [x || 0] on a Number. *)
Definition or_zero (x : number) : number :=
  match x with
  | NaN => Int 0
  | Int z => Int z
  end.

(** [l.slice(0, n)] *)
Definition slice0 (n : nat) (l : list jsval) : list jsval := take n l.

End JS.

(** ** The scoring clients *)

Import JS.
Local Open Scope js_scope.

(** What callers read of the object a client resolves to. *)
Record Evaluation : Type := {
  score : number;
  strengths : list jsval;
  weaknesses : list jsval;
  summary : option jsval;
}.

Definition items (v : option jsval) : list jsval :=
  match v with
  | Some (JArr l) => l
  | _ => []
  end.

Definition strings (l : list string) : list jsval := map JStr l.

(** *** src/config/groq.js *)

Module Groq.

(** The provider's answer to [groq.chat.completions.create]: the promise
    rejects (transport error, timeout, HTTP error), or it resolves and
    [completion.choices[0]?.message?.content] is [undefined]/[null] ([None])
    or a string. The prompt only influences what the provider answers. *)
Inductive completion : Type :=
| Rejected (e : error)
| Content (content : option string).

Definition create (up : completion) : outcome (option string) :=
  match up with
  | Rejected e => Throw e
  | Content c => Return c
  end.

Definition parse_fallback : Evaluation := {|
  score := Int 50;
  strengths := strings ["Candidato presenta experiencia en el área";
                        "Perfil con potencial de desarrollo"];
  weaknesses := strings ["Requiere evaluación más detallada";
                         "Información limitada para análisis completo"];
  summary := Some (JStr "Evaluación requiere revisión manual debido a error en el procesamiento automático.");
|}.

Definition error_fallback : Evaluation := {|
  score := Int 0;
  strengths := strings ["Evaluación pendiente"; "Requiere revisión manual"];
  weaknesses := strings ["Error en procesamiento automático";
                         "Información no disponible"];
  summary := Some (JStr "Error en la evaluación automática. Se requiere revisión manual del candidato.");
|}.

(** [cleanResponse.toLowerCase().includes('safe')] (line 91) *)
Definition filtered (response : string) : bool :=
  includes (toLowerCase (trim response)) "safe".

(** An answer that never reaches [JSON.parse]: a transport error or timeout,
    no content, or a filtered text. *)
Inductive no_answer : completion -> Prop :=
| no_answer_rejected e : no_answer (Rejected e)
| no_answer_undefined : no_answer (Content None)
| no_answer_empty : no_answer (Content (Some EmptyString))
| no_answer_filtered response :
    filtered response = true -> no_answer (Content (Some response)).

(** A parsed answer with a truthy [score], [strengths] and [weaknesses]. *)
Definition complete (v : jsval) : bool :=
  match v with
  | JObj fields => truthy_opt (lookup_field "score" fields)
                   && truthy_opt (lookup_field "strengths" fields)
                   && truthy_opt (lookup_field "weaknesses" fields)
  | _ => false
  end.

(** A list of the answer that [slice(0, 2)] leaves with fewer than two
    elements. *)
Definition short (v : option jsval) : bool :=
  match v with
  | Some (JArr l) => (length l <? 2)%nat
  | _ => false
  end.

(** A parsed answer that lists fewer than two strengths or fewer than two
    weaknesses. *)
Definition short_lists (v : jsval) : bool :=
  match v with
  | JObj fields => short (lookup_field "strengths" fields)
                   || short (lookup_field "weaknesses" fields)
  | _ => false
  end.

Section Client.

(** [JSON.parse]; [None] when it throws a [SyntaxError]. *)
Variable JSON_parse : string -> option jsval.

Definition parse (text : string) : outcome jsval :=
  match JSON_parse text with
  | Some v => Return v
  | None => Throw "SyntaxError"
  end.

(** The body of the inner [try] (lines 104-130). *)
Definition validate_and_clamp (cleanResponse : string) : outcome Evaluation :=
  evaluation <- parse cleanResponse;;
  e_score <- get evaluation "score";;
  e_strengths <- get evaluation "strengths";;
  e_weaknesses <- get evaluation "weaknesses";;
  if negb (truthy_opt e_score) || negb (truthy_opt e_strengths)
     || negb (truthy_opt e_weaknesses)
  then Throw "Respuesta del modelo incompleta"
  else
    e_summary <- get evaluation "summary";;
    Return {|
      score := Math_max 0 (Math_min 100 (parseInt e_score));
      strengths := if isArray e_strengths then slice0 2 (items e_strengths)
                   else strings ["Evaluación pendiente"; "Requiere revisión"];
      weaknesses := if isArray e_weaknesses then slice0 2 (items e_weaknesses)
                    else strings ["Información limitada"; "Análisis incompleto"];
      summary := if truthy_opt e_summary then e_summary
                 else Some (JStr "Evaluación completada automáticamente");
    |}.

(** The text handed to [JSON.parse] (lines 88-100), for a response that got
    that far. *)
Definition clean (response : string) : string :=
  let cleanResponse := trim response in
  match match_braces cleanResponse with
  | Some jsonMatch => jsonMatch
  | None => cleanResponse
  end.

(** The body of the outer [try] (lines 62-149). *)
Definition evaluateCV_try (up : completion) : outcome Evaluation :=
  response <- create up;;
  match response with
  | None | Some "" => Throw "No se recibió respuesta del modelo"
  | Some response =>
      if filtered response
      then Throw "Respuesta filtrada por seguridad"
      else try_catch (validate_and_clamp (clean response))
                     (fun parseError => Return parse_fallback)
  end.

Definition evaluateCV (up : completion) : outcome Evaluation :=
  try_catch (evaluateCV_try up) (fun error => Return error_fallback).

(** An answer that reaches [JSON.parse] and is not valid JSON, or not a
    complete evaluation. *)
Inductive malformed : completion -> Prop :=
| malformed_syntax response :
    response <> EmptyString -> filtered response = false ->
    JSON_parse (clean response) = None ->
    malformed (Content (Some response))
| malformed_incomplete response v :
    response <> EmptyString -> filtered response = false ->
    JSON_parse (clean response) = Some v -> complete v = false ->
    malformed (Content (Some response)).

End Client.

End Groq.

(** *** config/gemini.js *)

Module Gemini.

(** The provider's answer to [model.generateContent]: the promise rejects,
    or it resolves and [response.text()] throws (a blocked answer) or gives
    the text. *)
Inductive generation : Type :=
| Rejected (e : error)
| Blocked (e : error)
| Text (text : string).

Definition generateContent_text (up : generation) : outcome string :=
  match up with
  | Rejected e => Throw e
  | Blocked e => Throw e
  | Text t => Return t
  end.

Definition fallback : Evaluation := {|
  score := Int 0;
  strengths := strings ["Evaluación pendiente"; "Requiere revisión manual"; "Error de IA"];
  weaknesses := strings ["Error en procesamiento automático";
                         "Información no disponible"; "Fallo en la API"];
  summary := Some (JStr "Error en la evaluación automática con Gemini. Se requiere revisión manual del candidato.");
|}.

(** [while (l.length < 3) l.push(filler)] *)
Fixpoint push_while_short (fuel : nat) (l : list jsval) (filler : jsval) : list jsval :=
  match fuel with
  | O => l
  | S fuel => if (length l <? 3)%nat then push_while_short fuel (l ++ [filler]) filler
              else l
  end.

(** Three iterations always end the loop: the list was sliced to three. *)
Definition pad3 (l : list jsval) (filler : string) : list jsval :=
  push_while_short 3 l (JStr filler).

Definition normalizeEvaluation (evaluation : option jsval) : outcome Evaluation :=
  match evaluation with
  | None => Throw "Respuesta del modelo no es un objeto válido"
  | Some evaluation =>
      if negb (truthy evaluation) || negb (typeof_object evaluation)
      then Throw "Respuesta del modelo no es un objeto válido"
      else if negb (has_key "score" evaluation) || negb (has_key "strengths" evaluation)
              || negb (has_key "weaknesses" evaluation)
      then Throw "Respuesta del modelo incompleta. Faltan score, strengths o weaknesses."
      else
        e_score <- get evaluation "score";;
        e_strengths <- get evaluation "strengths";;
        e_weaknesses <- get evaluation "weaknesses";;
        e_summary <- get evaluation "summary";;
        Return {|
          score := Math_max 0 (Math_min 100 (or_zero (parseInt e_score)));
          strengths := pad3 (slice0 3 (if isArray e_strengths then items e_strengths else []))
                            "Análisis pendiente";
          weaknesses := pad3 (slice0 3 (if isArray e_weaknesses then items e_weaknesses else []))
                             "Información limitada";
          summary := if truthy_opt e_summary then e_summary
                     else Some (JStr "Evaluación completada automáticamente.");
        |}
  end.

(** A parsed answer that is an object with the three keys. *)
Definition complete (v : jsval) : bool :=
  has_key "score" v && has_key "strengths" v && has_key "weaknesses" v.

Section Client.

Variable JSON_parse : string -> option jsval.

Definition parse (text : string) : outcome jsval :=
  match JSON_parse text with
  | Some v => Return v
  | None => Throw "SyntaxError"
  end.

(** What the provider can do wrong: a transport error or timeout, a blocked
    answer, a text that is not JSON, a value that is not a complete object. *)
Inductive failure : generation -> Prop :=
| failure_rejected e : failure (Rejected e)
| failure_blocked e : failure (Blocked e)
| failure_syntax text : JSON_parse text = None -> failure (Text text)
| failure_incomplete text v :
    JSON_parse text = Some v -> complete v = false -> failure (Text text).

Definition evaluateCVWithText_try (up : generation) : outcome Evaluation :=
  evaluation <- generateContent_text up;;
  parsed <- parse evaluation;;
  normalizeEvaluation (Some parsed).

Definition evaluateCVWithText (up : generation) : outcome Evaluation :=
  try_catch (evaluateCVWithText_try up) (fun error => Return fallback).

(** [evaluateCVWithFile] sends the PDF itself with the prompt; what it does
    with the provider's answer is the same (lines 108-139). *)
Definition evaluateCVWithFile (up : generation) : outcome Evaluation :=
  try_catch (evaluation <- generateContent_text up;;
             parsed <- parse evaluation;;
             normalizeEvaluation (Some parsed))
            (fun error => Return fallback).

End Client.

End Gemini.

(** ** The relational store, the object store and the request handlers *)

Module Pipeline.

Definition uuid := string.

(** *** Rows (migrations/001: [job_roles], [applications], [evaluations]) *)

Record job_role : Type := {
  role_id : uuid;
  role_description : string;
  role_status : string;
  role_created_by : uuid;
}.

Record application : Type := {
  app_id : uuid;
  app_job_role_id : uuid;
  candidate_name : string;
  candidate_email : string;
  candidate_phone : option string;
  cv_file_path : string;
  cv_text : option string;      (* [None] is SQL NULL *)
  app_status : string;
}.

Record evaluation_row : Type := {
  ev_application_id : uuid;
  ev_score : Z;
  ev_strengths : list jsval;
  ev_weaknesses : list jsval;
  ev_summary : option jsval;
  ev_model_used : string;
}.

Record database : Type := {
  job_roles : list job_role;
  applications : list application;
  evaluations : list evaluation_row;
}.

(** A table with one more row. *)
Definition add_row {A : Type} (rows : list A) (row : A) : list A := rows ++ [row].

(** The writes a transaction buffers until COMMIT. *)
Inductive write : Type :=
| InsertApplication (row : application)
| DeleteEvaluations (application_id : uuid)
| DeleteApplication (id : uuid).

Definition apply_write (d : database) (w : write) : database :=
  match w with
  | InsertApplication row =>
      {| job_roles := job_roles d;
         applications := add_row (applications d) row;
         evaluations := evaluations d |}
  | DeleteEvaluations id =>
      {| job_roles := job_roles d;
         applications := applications d;
         evaluations := List.filter (fun e => negb (ev_application_id e =? id)) (evaluations d) |}
  | DeleteApplication id =>
      (* evaluations.application_id ... ON DELETE CASCADE *)
      {| job_roles := job_roles d;
         applications := List.filter (fun a => negb (app_id a =? id)) (applications d);
         evaluations := List.filter (fun e => negb (ev_application_id e =? id)) (evaluations d) |}
  end.

(** *** The outside world *)

(** Everything a handler can ask of the database, the PDF parser and the
    connection pool; [fails] of the environment says which of them throw. *)
Inductive op : Type :=
| OpConnect
| OpBegin
| OpCommit
| OpRollback
| OpSelectRole
| OpSelectDuplicate
| OpInsertApplication
| OpInsertEvaluation
| OpSelectApplication
| OpUpdateApplication
| OpDeleteEvaluations
| OpDeleteApplication
| OpSelectEvaluation
| OpUpdateEvaluation
| OpPdfParse.

(** How a call of the storage client ends: supabase-js resolves to
    [{ data, error }], with [error] set when the request failed, and throws
    only on errors that are not its own. *)
Inductive storage_result : Type :=
| Done
| ReturnsError (message : string)
| Throws (message : string).

Inductive scoring_client : Type := ClientGroq | ClientGemini.

(** What [setImmediate] queues in POST /: the closure's captured variables. *)
Record task : Type := {
  task_applicationId : uuid;
  task_cvText : string;
  task_description : string;
}.

Inductive event : Type :=
| EvCall (o : op) (ok : bool)
| EvUpload (key : string) (ok : bool)
| EvRemove (key : string) (ok : bool)
| EvDispatch (t : task)
| EvScore (c : scoring_client)
| EvRelease
| EvRespond (status : nat).

Record env : Type := {
  JSON_parse : string -> option jsval;
  is_uuid : string -> bool;           (* Joi [string().uuid()] *)
  is_email : string -> bool;          (* Joi [string().email()] *)
  gen_uuid : nat -> uuid;             (* [uuidv4()] and [uuid_generate_v4()] *)
  getPublicUrl : string -> string;
  pdfParse : string -> string;        (* the text of a buffer, when it parses *)
  fails : op -> option error;     (* the message of the error thrown *)
  upload_result : storage_result;
  remove_result : storage_result;
  groq : Groq.completion;
  gemini : Gemini.generation;
  (** the provider answers the queued scoring task, and the task runs to
      its end, while the handler still awaits the database *)
  early : bool;
}.

(** The [let] variables of POST / that its closures assign and read. *)
Record locals : Type := {
  cvFilePath : string;
  cvText : string;
  applicationId : uuid;
}.

Record world : Type := {
  db : database;                      (* committed rows: what the pool reads *)
  tx : option (list write);           (* the client's open transaction *)
  bucket : gmap string string;        (* the bucket 'cvs': key to content *)
  console : list string;              (* [console.error], newest first *)
  trace : list event;                 (* newest first *)
  immediates : list (task * bool);    (* what [setImmediate] queued, each with
                                         whether its call of the provider is
                                         under way *)
  counter : nat;                      (* uuids handed out *)
  frame : locals;
}.

Definition set_db (d : database) (w : world) : world :=
  {| db := d; tx := tx w; bucket := bucket w; console := console w; trace := trace w;
     immediates := immediates w; counter := counter w; frame := frame w |}.
Definition set_tx (t : option (list write)) (w : world) : world :=
  {| db := db w; tx := t; bucket := bucket w; console := console w; trace := trace w;
     immediates := immediates w; counter := counter w; frame := frame w |}.
Definition set_bucket (b : gmap string string) (w : world) : world :=
  {| db := db w; tx := tx w; bucket := b; console := console w; trace := trace w;
     immediates := immediates w; counter := counter w; frame := frame w |}.
Definition set_console (c : list string) (w : world) : world :=
  {| db := db w; tx := tx w; bucket := bucket w; console := c; trace := trace w;
     immediates := immediates w; counter := counter w; frame := frame w |}.
Definition set_trace (t : list event) (w : world) : world :=
  {| db := db w; tx := tx w; bucket := bucket w; console := console w; trace := t;
     immediates := immediates w; counter := counter w; frame := frame w |}.
Definition set_immediates (q : list (task * bool)) (w : world) : world :=
  {| db := db w; tx := tx w; bucket := bucket w; console := console w; trace := trace w;
     immediates := q; counter := counter w; frame := frame w |}.
Definition set_counter (n : nat) (w : world) : world :=
  {| db := db w; tx := tx w; bucket := bucket w; console := console w; trace := trace w;
     immediates := immediates w; counter := n; frame := frame w |}.
Definition set_frame (f : locals) (w : world) : world :=
  {| db := db w; tx := tx w; bucket := bucket w; console := console w; trace := trace w;
     immediates := immediates w; counter := counter w; frame := f |}.

(** What a statement sees: the committed rows and, on the client of an open
    transaction, its own writes. *)
Definition view (w : world) : database :=
  match tx w with
  | Some writes => fold_left apply_write writes (db w)
  | None => db w
  end.

(** The bucket as the storage client sees it. *)
Definition has_object (key : string) (b : gmap string string) : bool :=
  bool_decide (is_Some (b !! key)).
Definition put_object (key content : string) (b : gmap string string) : gmap string string :=
  <[key := content]> b.
Definition remove_object (key : string) (b : gmap string string) : gmap string string :=
  delete key b.

(** A world at rest: no open transaction, nothing queued. *)
Definition idle (d : database) (b : gmap string string) (c : list string)
                (tr : list event) (n : nat) (f : locals) : world :=
  {| db := d; tx := None; bucket := b; console := c; trace := tr;
     immediates := []; counter := n; frame := f |}.

(** The events of a run, oldest first. *)
Definition history (w : world) : list event := rev (trace w).

(** *** Computations: state and exceptions *)

Definition M (A : Type) : Type := world -> outcome A * world.

Definition ret {A} (a : A) : M A := fun w => (Return a, w).
Definition throw {A} (e : error) : M A := fun w => (Throw e, w).

Definition mbind {A B} (m : M A) (k : A -> M B) : M B :=
  fun w => match m w with
           | (Return a, w') => k a w'
           | (Throw e, w') => (Throw e, w')
           end.

(** [try { body } catch (e) { handler e }] *)
Definition catch {A} (body : M A) (handler : error -> M A) : M A :=
  fun w => match body w with
           | (Return a, w') => (Return a, w')
           | (Throw e, w') => handler e w'
           end.

(** [try { body } finally { final }] *)
Definition finally {A} (body : M A) (final : M unit) : M A :=
  fun w => match body w with
           | (r, w') => match final w' with
                        | (Return _, w'') => (r, w'')
                        | (Throw e, w'') => (Throw e, w'')
                        end
           end.

Declare Scope io_scope.
Delimit Scope io_scope with io.
Notation "x <- m ;; k" := (mbind m (fun x => k))
  (at level 100, m at next level, right associativity) : io_scope.
Notation "m ;;; k" := (mbind m (fun _ => k))
  (at level 100, right associativity) : io_scope.
Local Open Scope io_scope.

Definition read {A} (f : world -> A) : M A := fun w => (Return (f w), w).
Definition modify (f : world -> world) : M unit := fun w => (Return tt, f w).
Definition emit (e : event) : M unit := modify (fun w => set_trace (e :: trace w) w).
Definition console_error (line : string) : M unit :=
  modify (fun w => set_console (line :: console w) w).
Definition lift {A} (o : outcome A) : M A := fun w => (o, w).

(** *** Statements *)

Definition select_active_role (id : uuid) (d : database) : list job_role :=
  List.filter (fun r => (role_id r =? id) && (role_status r =? "active")) (job_roles d).

Definition select_duplicates (jobRoleId email : string) (d : database) : list application :=
  List.filter (fun a => (app_job_role_id a =? jobRoleId) && (candidate_email a =? email))
              (applications d).

(** [SELECT a.*, jr.created_by ... FROM applications a JOIN job_roles jr
    ON a.job_role_id = jr.id WHERE a.id = $1] *)
Definition select_application (id : uuid) (d : database) : list (application * job_role) :=
  flat_map (fun a =>
              if app_id a =? id
              then map (fun r => (a, r))
                       (List.filter (fun r => role_id r =? app_job_role_id a) (job_roles d))
              else [])
           (applications d).

Definition select_evaluation (applicationId : uuid) (d : database) : list evaluation_row :=
  List.filter (fun e => ev_application_id e =? applicationId) (evaluations d).

Definition has_role (id : uuid) (d : database) : bool :=
  existsb (fun r => role_id r =? id) (job_roles d).

Definition has_application (id : uuid) (d : database) : bool :=
  existsb (fun a => app_id a =? id) (applications d).

(** [INSERT INTO applications ... RETURNING *]: the primary key and the
    foreign key to [job_roles] are checked; there is no unique constraint on
    (job_role_id, candidate_email). *)
Definition insert_application (row : application) (d : database) : outcome application :=
  if negb (has_role (app_job_role_id row) d)
  then Throw "violates foreign key constraint"
  else if has_application (app_id row) d
  then Throw "duplicate key value violates unique constraint"
  else Return row.

(** The row of [INSERT INTO evaluations]: [score INTEGER CHECK (score >= 0
    AND score <= 100)], [application_id REFERENCES applications(id)]. *)
Definition evaluation_values (applicationId : uuid) (e : Evaluation) (model : string)
                             (d : database) : outcome evaluation_row :=
  match score e with
  | NaN => Throw "invalid input syntax for type integer"
  | Int z =>
      if negb ((0 <=? z)%Z && (z <=? 100)%Z)
      then Throw "violates check constraint"
      else if negb (has_application applicationId d)
      then Throw "violates foreign key constraint"
      else Return {| ev_application_id := applicationId; ev_score := z;
                     ev_strengths := strengths e; ev_weaknesses := weaknesses e;
                     ev_summary := summary e; ev_model_used := model |}
  end.

Definition add_evaluation (row : evaluation_row) (d : database) : database :=
  {| job_roles := job_roles d; applications := applications d;
     evaluations := add_row (evaluations d) row |}.

Definition update_evaluations (row : evaluation_row) (d : database) : database :=
  {| job_roles := job_roles d; applications := applications d;
     evaluations := map (fun e => if ev_application_id e =? ev_application_id row
                                  then row else e) (evaluations d) |}.

(** The fields PUT /:id may set. *)
Record update_value : Type := {
  u_status : option string;
  u_candidateName : option string;
  u_candidateEmail : option string;
  u_candidatePhone : option string;
}.

Definition update_row (v : update_value) (a : application) : application :=
  {| app_id := app_id a;
     app_job_role_id := app_job_role_id a;
     candidate_name := default (candidate_name a) (u_candidateName v);
     candidate_email := default (candidate_email a) (u_candidateEmail v);
     candidate_phone := match u_candidatePhone v with
                        | Some p => Some p
                        | None => candidate_phone a
                        end;
     cv_file_path := cv_file_path a;
     cv_text := cv_text a;
     app_status := default (app_status a) (u_status v) |}.

(** [UPDATE applications SET ... WHERE id = $n] *)
Definition update_applications (id : uuid) (v : update_value) (d : database) : database :=
  {| job_roles := job_roles d;
     applications := map (fun a => if app_id a =? id then update_row v a else a)
                         (applications d);
     evaluations := evaluations d |}.

(** *** The handlers, in an environment *)

Section Handlers.

Variable E : env.

(** A statement sent through the pool: it reads and writes committed rows,
    and [query] logs and rethrows its failure. *)
Definition query_now {A} (o : op) (stmt : database -> outcome (A * database)) : M A :=
  catch
    (match fails E o with
     | Some message => emit (EvCall o false) ;;; throw message
     | None =>
         d <- read db ;;
         match stmt d with
         | Return (a, d') => modify (set_db d') ;;; emit (EvCall o true) ;;; ret a
         | Throw e => emit (EvCall o false) ;;; throw e
         end
     end)
    (fun error => console_error "❌ Error en consulta SQL:" ;;; throw error).

Definition insert_evaluation (applicationId : uuid) (e : Evaluation) (model : string)
  : database -> outcome (evaluation_row * database) :=
  fun d => (row <- evaluation_values applicationId e model d ;;
            Return (row, add_evaluation row d))%js.

(** The scoring task of POST / (applications.js, lines 194-218) up to its
    first [await]: the request to the provider is sent. *)
Definition start_task (t : task) : M unit := emit (EvScore ClientGroq).

(** The task from the provider's answer on: the evaluation is inserted
    through the pool, and whatever fails is logged. *)
Definition finish_task (t : task) : M unit :=
  catch
    (evaluation <- lift (Groq.evaluateCV (JSON_parse E) (groq E)) ;;
     query_now OpInsertEvaluation
               (insert_evaluation (task_applicationId t) evaluation "llama-3.1-8b-instant") ;;;
     ret tt)
    (fun evalError => console_error "❌ Error evaluando CV para aplicación").

Fixpoint start_tasks (q : list (task * bool)) : M unit :=
  match q with
  | [] => ret tt
  | (t, called) :: q => (if called then ret tt else start_task t) ;;; start_tasks q
  end.

Fixpoint finish_tasks (q : list (task * bool)) : M unit :=
  match q with
  | [] => ret tt
  | (t, _) :: q => finish_task t ;;; finish_tasks q
  end.

Fixpoint waiting (q : list (task * bool)) : list (task * bool) :=
  match q with
  | [] => []
  | (t, _) :: q => (t, true) :: waiting q
  end.

(** The event loop takes its turn: the callbacks [setImmediate] queued
    start, and when the provider has [answered] they run to their end. *)
Definition run_immediates (answered : bool) : M unit :=
  q <- read immediates ;;
  start_tasks q ;;;
  if answered
  then modify (set_immediates []) ;;; finish_tasks q
  else modify (set_immediates (waiting q)).

(** An [await] on input or output gives the event loop its turn, before
    the awaited operation takes effect: a queued task always starts there,
    and [early] says whether the provider's answer arrives there too. A
    task that finishes after the awaited operation took effect and before
    the handler goes on leaves the same rows as one that finishes after the
    response. *)
Definition yield : M unit := run_immediates (early E).

Definition setImmediate (t : task) : M unit :=
  modify (fun w => set_immediates (immediates w ++ [(t, false)]) w) ;;; emit (EvDispatch t).

(** **** utils/database.js *)

(** [query(text, params)] *)
Definition query {A} (o : op) (stmt : database -> outcome (A * database)) : M A :=
  yield ;;; query_now o stmt.

Definition selecting {A} (sel : database -> A) : database -> outcome (A * database) :=
  fun d => Return (sel d, d).

(** [client.query(text, params)] inside the callback of [transaction]: the
    statement sees [view] and its writes are buffered. *)
Definition client_query {A} (o : op) (stmt : database -> outcome (A * list write)) : M A :=
  yield ;;;
  match fails E o with
  | Some message => emit (EvCall o false) ;;; throw message
  | None =>
      v <- read view ;;
      match stmt v with
      | Return (a, ws) =>
          modify (fun w => match tx w with
                           | Some pending => set_tx (Some (pending ++ ws)) w
                           | None => set_db (fold_left apply_write ws (db w)) w
                           end) ;;;
          emit (EvCall o true) ;;; ret a
      | Throw e => emit (EvCall o false) ;;; throw e
      end
  end.

(** [logQuery(client, 'BEGIN' | 'COMMIT' | 'ROLLBACK')] *)
Definition logQuery (o : op) (effect : world -> world) (broken : world -> world) : M unit :=
  catch
    (yield ;;;
     match fails E o with
     | Some message => modify broken ;;; emit (EvCall o false) ;;; throw message
     | None => modify effect ;;; emit (EvCall o true)
     end)
    (fun error => console_error "❌ Error en consulta de transacción:" ;;; throw error).

Definition BEGIN : M unit := logQuery OpBegin (set_tx (Some [])) (fun w => w).
Definition COMMIT : M unit :=
  logQuery OpCommit (fun w => set_tx None (set_db (view w) w)) (fun w => w).
(** A ROLLBACK that fails has lost its connection: the open transaction is
    discarded by the server all the same. *)
Definition ROLLBACK : M unit := logQuery OpRollback (set_tx None) (set_tx None).

Definition getClient : M unit :=
  yield ;;;
  match fails E OpConnect with
  | Some message => emit (EvCall OpConnect false) ;;; throw message
  | None => emit (EvCall OpConnect true)
  end.

Definition transaction {A} (callback : M A) : M A :=
  getClient ;;;
  finally
    (catch (BEGIN ;;; result <- callback ;; COMMIT ;;; ret result)
           (fun error => ROLLBACK ;;; throw error))
    (emit EvRelease).

(** **** The storage client on the bucket 'cvs' *)

(** [upload(path, body, { upsert: false })]: the returned [error], if any. *)
Definition storage_upload (key content : string) : M (option error) :=
  yield ;;;
  match upload_result E with
  | Throws message => emit (EvUpload key false) ;;; throw message
  | ReturnsError message => emit (EvUpload key false) ;;; ret (Some message)
  | Done =>
      b <- read bucket ;;
      if has_object key b
      then emit (EvUpload key false) ;;; ret (Some "The resource already exists")
      else
        modify (set_bucket (put_object key content b)) ;;;
        emit (EvUpload key true) ;;; ret None
  end.

(** [remove([key])]: the returned [error], if any. Removing an absent key is
    no error. *)
Definition storage_remove (key : string) : M (option error) :=
  yield ;;;
  match remove_result E with
  | Throws message => emit (EvRemove key false) ;;; throw message
  | ReturnsError message => emit (EvRemove key false) ;;; ret (Some message)
  | Done =>
      modify (fun w => set_bucket (remove_object key (bucket w)) w) ;;;
      emit (EvRemove key true) ;;; ret None
  end.

(** **** src/routes/applications.js *)

Definition uploadToSupabaseStorage (fileBuffer fileName : string) : M string :=
  catch
    (error <- storage_upload fileName fileBuffer ;;
     match error with
     | Some message => throw ("Error subiendo archivo: " +:+ message)
     | None => ret (getPublicUrl E fileName)
     end)
    (fun error => console_error "Error en uploadToSupabaseStorage:" ;;; throw error).

Definition extractTextFromPDF (pdfBuffer : string) : M string :=
  catch
    (yield ;;;
     match fails E OpPdfParse with
     | Some message => emit (EvCall OpPdfParse false) ;;; throw message
     | None => emit (EvCall OpPdfParse true) ;;; ret (pdfParse E pdfBuffer)
     end)
    (fun error => console_error "Error extrayendo texto del PDF:" ;;;
                  throw "No se pudo extraer texto del PDF").

Record file : Type := {
  mimetype : string;
  buffer : string;
}.

(** The text fields of the multipart form; [None] is an absent field. *)
Record create_body : Type := {
  jobRoleId : option string;
  candidateName : option string;
  candidateEmail : option string;
  candidatePhone : option string;
}.

Record post_request : Type := {
  post_file : option file;
  post_body : create_body;
}.

(** The validated value: the required fields are there. *)
Record create_value : Type := {
  v_jobRoleId : string;
  v_candidateName : string;
  v_candidateEmail : string;
  v_candidatePhone : option string;
}.

Definition not_allowed_empty (label : string) : string :=
  quoted label +:+ " is not allowed to be empty".

Definition too_long (label limit : string) : string :=
  quoted label +:+ " length must be less than or equal to " +:+ limit +:+ " characters long".

(** [createApplicationSchema.validate(req.body)]: the first failure, in the
    order of the schema's keys, or the validated value. *)
Definition validate_create (b : create_body) : string + create_value :=
  match jobRoleId b with
  | None => inl "El ID del rol es requerido"
  | Some id =>
      if id =? "" then inl (not_allowed_empty "jobRoleId")
      else if negb (is_uuid E id) then inl "ID de rol inválido"
      else
        match candidateName b with
        | None => inl "El nombre del candidato es requerido"
        | Some name =>
            if name =? "" then inl (not_allowed_empty "candidateName")
            else if (code_units name <? 2)%nat
            then inl "El nombre debe tener al menos 2 caracteres"
            else if (255 <? code_units name)%nat
            then inl "El nombre no puede exceder 255 caracteres"
            else
              match candidateEmail b with
              | None => inl "El email del candidato es requerido"
              | Some email =>
                  if email =? "" then inl (not_allowed_empty "candidateEmail")
                  else if negb (is_email E email) then inl "Debe ser un email válido"
                  else
                    match candidatePhone b with
                    | Some phone =>
                        if phone =? "" then inl (not_allowed_empty "candidatePhone")
                        else if (50 <? code_units phone)%nat
                        then inl (too_long "candidatePhone" "50")
                        else inr {| v_jobRoleId := id; v_candidateName := name;
                                    v_candidateEmail := email;
                                    v_candidatePhone := Some phone |}
                    | None => inr {| v_jobRoleId := id; v_candidateName := name;
                                     v_candidateEmail := email;
                                     v_candidatePhone := None |}
                    end
              end
        end
  end.

Inductive payload : Type :=
| PError (message : string)
| PCreated (id jobRoleId candidateName candidateEmail : string)
           (candidatePhone : option string) (status cvFilePath : string)
| PMessage (message : string)
| PApplication (row : option application)
| PEvaluation (row : option evaluation_row).

Record response : Type := {
  status : nat;
  body : payload;
}.

(** [res.status(code).json(payload)] *)
Definition respond (code : nat) (p : payload) : M response :=
  emit (EvRespond code) ;;; ret {| status := code; body := p |}.

Definition error_body (code : nat) (message : string) : M response :=
  respond code (PError message).

Definition is_alnum (c : ascii) : bool :=
  let n := nat_of_ascii c in
  ((48 <=? n)%nat && (n <=? 57)%nat) || ((65 <=? n)%nat && (n <=? 90)%nat)
  || ((97 <=? n)%nat && (n <=? 122)%nat).

(** [name.replace(/[^a-zA-Z0-9]/g, '_')]: an underscore for each UTF-16
    code unit that is no ASCII letter or digit. *)
Fixpoint sanitize (name : string) : string :=
  match name with
  | EmptyString => EmptyString
  | String c rest =>
      if is_alnum c then String c (sanitize rest)
      else match units c with
           | 0 => sanitize rest
           | 1 => String "_" (sanitize rest)
           | _ => String "_" (String "_" (sanitize rest))
           end
  end.

Definition uuidv4 : M uuid :=
  n <- read counter ;;
  modify (set_counter (S n)) ;;;
  ret (gen_uuid E n).

Definition set_cvFilePath (v : string) : M unit :=
  modify (fun w => set_frame {| cvFilePath := v; cvText := cvText (frame w);
                                applicationId := applicationId (frame w) |} w).
Definition set_cvText (v : string) : M unit :=
  modify (fun w => set_frame {| cvFilePath := cvFilePath (frame w); cvText := v;
                                applicationId := applicationId (frame w) |} w).
Definition set_applicationId (v : uuid) : M unit :=
  modify (fun w => set_frame {| cvFilePath := cvFilePath (frame w);
                                cvText := cvText (frame w); applicationId := v |} w).

(** [INSERT INTO public.applications (...) VALUES ($1, ..., $6) RETURNING *];
    [id] and [status] take their column defaults. *)
Definition insert_application_returning (jobRoleId candidateName candidateEmail : string)
    (candidatePhone : option string) (cvFilePath cvText : string) : M application :=
  id <- uuidv4 ;;
  client_query OpInsertApplication
    (fun d => (row <- insert_application
                        {| app_id := id; app_job_role_id := jobRoleId;
                           candidate_name := candidateName;
                           candidate_email := candidateEmail;
                           candidate_phone := candidatePhone;
                           cv_file_path := cvFilePath; cv_text := Some cvText;
                           app_status := "pending" |} d ;;
               Return (row, [InsertApplication row]))%js).

(** The callback handed to [transaction] (lines 169-234). *)
Definition create_application (f : file) (value : create_value) (jobRole : job_role)
                              (uniqueFileName : string) : M application :=
  catch
    (path <- uploadToSupabaseStorage (buffer f) uniqueFileName ;;
     set_cvFilePath path ;;;
     text <- extractTextFromPDF (buffer f) ;;
     set_cvText text ;;;
     row <- insert_application_returning (v_jobRoleId value) (v_candidateName value)
                                         (v_candidateEmail value)
                                         (v_candidatePhone value) path text ;;
     set_applicationId (app_id row) ;;;
     setImmediate {| task_applicationId := app_id row; task_cvText := text;
                     task_description := role_description jobRole |} ;;;
     ret row)
    (fun error =>
       path <- read (fun w => cvFilePath (frame w)) ;;
       (if negb (path =? "")
        then catch (storage_remove uniqueFileName ;;; ret tt)
                   (fun cleanupError => console_error "Error limpiando archivo:")
        else ret tt) ;;;
       throw error).

(** The route handler of POST / (lines 104-267), for the file multer left
    in [req.file]. *)
Definition post_handler (f : option file) (b : create_body) : M response :=
  catch
    (match f with
     | None => error_body 400 "Archivo CV requerido"
     | Some f =>
         match validate_create b with
         | inl message => error_body 400 message
         | inr value =>
             let jobRoleId := v_jobRoleId value in
             let candidateName := v_candidateName value in
             let candidateEmail := v_candidateEmail value in
             roleCheck <- query OpSelectRole (selecting (select_active_role jobRoleId)) ;;
             match roleCheck with
             | [] => error_body 404 "Rol no encontrado o no está activo"
             | jobRole :: _ =>
                 existingApplication <-
                   query OpSelectDuplicate
                         (selecting (select_duplicates jobRoleId candidateEmail)) ;;
                 if (0 <? length existingApplication)%nat
                 then error_body 409 "Ya existe una aplicación de este candidato para este rol"
                 else
                   u <- uuidv4 ;;
                   let uniqueFileName := u +:+ "_" +:+ sanitize candidateName +:+ ".pdf" in
                   modify (set_frame {| cvFilePath := ""; cvText := "";
                                        applicationId := "" |}) ;;;
                   transaction (create_application f value jobRole uniqueFileName) ;;;
                   l <- read frame ;;
                   respond 201 (PCreated (applicationId l) jobRoleId candidateName
                                         candidateEmail (v_candidatePhone value)
                                         "pending" (cvFilePath l))
             end
         end
     end)
    (fun error =>
       console_error "Error creando aplicación:" ;;;
       if includes error "Solo se permiten archivos PDF"
       then error_body 400 "Solo se permiten archivos PDF"
       else error_body 500 "Error interno del servidor").

(** [upload.single('cv')] with the [fileFilter] of lines 19-25: multer hands
    the filter's error to [next], so the route handler does not run. *)
Definition multer_single (req : post_request) : error + option file :=
  match post_file req with
  | Some f => if mimetype f =? "application/pdf" then inr (Some f)
              else inl "Solo se permiten archivos PDF"
  | None => inr None
  end.

(** The error-handling middleware of server.js. An [Error] made by
    [new Error(message)] has no [status]. *)
Definition error_middleware (err : error) : M response :=
  console_error "Error:" ;;;
  error_body 500 (if err =? "" then "Error interno del servidor" else err).

(** POST /api/applications *)
Definition post_application (req : post_request) : M response :=
  match multer_single req with
  | inl err => error_middleware err
  | inr f => post_handler f (post_body req)
  end.

(** [req.user] as [authenticateToken] leaves it; [profile_role] is
    [req.user.profile?.role]. *)
Record user : Type := {
  user_id : uuid;
  profile_role : option string;
}.

(** [req.user.profile?.role !== 'admin' && job_creator_id !== req.user.id] *)
Definition forbidden (u : user) (job_creator_id : uuid) : bool :=
  negb (bool_decide (profile_role u = Some "admin")) && negb (job_creator_id =? user_id u).

Definition one_of (label : string) : string :=
  quoted label +:+ " must be one of [pending, reviewing, interviewed, hired, rejected]".

Definition valid_status (s : string) : bool :=
  existsb (String.eqb s) ["pending"; "reviewing"; "interviewed"; "hired"; "rejected"].

Fixpoint first_error (checks : list (option string)) : option string :=
  match checks with
  | [] => None
  | Some message :: _ => Some message
  | None :: rest => first_error rest
  end.

(** [updateApplicationSchema.validate(req.body)]: the first failure, in the
    order of the schema's keys. *)
Definition validate_update (b : update_value) : string + update_value :=
  let status_error :=
    match u_status b with
    | Some st => if valid_status st then None else Some (one_of "status")
    | None => None
    end in
  let name_error :=
    match u_candidateName b with
    | Some name =>
        if name =? "" then Some (not_allowed_empty "candidateName")
        else if (code_units name <? 2)%nat
        then Some (quoted "candidateName" +:+ " length must be at least 2 characters long")
        else if (255 <? code_units name)%nat then Some (too_long "candidateName" "255")
        else None
    | None => None
    end in
  let email_error :=
    match u_candidateEmail b with
    | Some email =>
        if email =? "" then Some (not_allowed_empty "candidateEmail")
        else if negb (is_email E email)
        then Some (quoted "candidateEmail" +:+ " must be a valid email")
        else None
    | None => None
    end in
  let phone_error :=
    match u_candidatePhone b with
    | Some phone =>
        if phone =? "" then Some (not_allowed_empty "candidatePhone")
        else if (50 <? code_units phone)%nat then Some (too_long "candidatePhone" "50")
        else None
    | None => None
    end in
  match first_error [status_error; name_error; email_error; phone_error] with
  | Some message => inl message
  | None => inr b
  end.

(** [updates.length === 0] *)
Definition no_updates (v : update_value) : bool :=
  match u_status v, u_candidateName v, u_candidateEmail v, u_candidatePhone v with
  | None, None, None, None => true
  | _, _, _, _ => false
  end.

(** PUT /api/applications/:id (lines 445-538) *)
Definition put_application (u : user) (id : string) (b : update_value) : M response :=
  catch
    (match validate_update b with
     | inl message => error_body 400 message
     | inr value =>
         applicationCheck <- query OpSelectApplication (selecting (select_application id)) ;;
         match applicationCheck with
         | [] => error_body 404 "Aplicación no encontrada"
         | (application, jr) :: _ =>
             if forbidden u (role_created_by jr)
             then error_body 403 "No tienes permisos para editar esta aplicación"
             else if no_updates value
             then error_body 400 "No hay campos para actualizar"
             else
               result <- query OpUpdateApplication
                 (fun d => let d' := update_applications id value d in
                           Return (List.filter (fun a => app_id a =? id) (applications d'),
                                   d')) ;;
               respond 200 (PApplication (head result))
         end
     end)
    (fun error => console_error "Error actualizando aplicación:" ;;;
                  error_body 500 "Error interno del servidor").

(** [path.split('/').pop()] *)
Fixpoint last_segment_from (s acc : string) : string :=
  match s with
  | EmptyString => acc
  | String c rest => if Ascii.eqb c "/" then last_segment_from rest rest
                     else last_segment_from rest acc
  end.

Definition last_segment (s : string) : string := last_segment_from s s.

(** The callback of DELETE /:id in applications.js (lines 578-597). *)
Definition delete_rows_and_file (id : uuid) (application : application) : M unit :=
  client_query OpDeleteEvaluations (fun _ => Return (tt, [DeleteEvaluations id])) ;;;
  client_query OpDeleteApplication (fun _ => Return (tt, [DeleteApplication id])) ;;;
  if negb (cv_file_path application =? "")
  then catch (storage_remove (last_segment (cv_file_path application)) ;;; ret tt)
             (fun storageError => console_error "Error eliminando archivo del storage:")
  else ret tt.

(** DELETE /api/applications/:id (lines 544-611) *)
Definition delete_application (u : user) (id : string) : M response :=
  catch
    (applicationCheck <- query OpSelectApplication (selecting (select_application id)) ;;
     match applicationCheck with
     | [] => error_body 404 "Aplicación no encontrada"
     | (application, jr) :: _ =>
         if forbidden u (role_created_by jr)
         then error_body 403 "No tienes permisos para eliminar esta aplicación"
         else
           transaction (delete_rows_and_file id application) ;;;
           respond 200 (PMessage "Aplicación eliminada exitosamente")
     end)
    (fun error => console_error "Error eliminando aplicación:" ;;;
                  error_body 500 "Error interno del servidor").

(** **** src/routes/candidates.js *)

(** What the transaction of DELETE /api/candidates/:id returns. *)
Record delete_result : Type := {
  dr_status : nat;
  dr_message : string;
  dr_cvFilePath : string;
}.

(** DELETE /api/candidates/:id (lines 206-268): the rows go in the
    transaction, the file after it. *)
Definition delete_candidate (u : user) (id : string) : M response :=
  catch
    (result <- transaction
       (appQuery <- client_query OpSelectApplication
                      (fun d => Return (select_application id d, [])) ;;
        match appQuery with
        | [] => ret {| dr_status := 404; dr_message := "Candidato no encontrado";
                       dr_cvFilePath := "" |}
        | (application, jr) :: _ =>
            if negb (role_created_by jr =? user_id u)
               && negb (bool_decide (profile_role u = Some "admin"))
            then ret {| dr_status := 403;
                        dr_message := "No tienes permisos para eliminar este candidato";
                        dr_cvFilePath := "" |}
            else
              client_query OpDeleteEvaluations
                           (fun _ => Return (tt, [DeleteEvaluations id])) ;;;
              client_query OpDeleteApplication
                           (fun _ => Return (tt, [DeleteApplication id])) ;;;
              ret {| dr_status := 200; dr_message := "";
                     dr_cvFilePath := cv_file_path application |}
        end) ;;
     if negb (dr_status result =? 200)%nat
     then respond (dr_status result) (PMessage (dr_message result))
     else
       (if negb (dr_cvFilePath result =? "")
        then storageError <- storage_remove (dr_cvFilePath result) ;;
             match storageError with
             | Some _ => console_error "Error al eliminar CV de Storage:"
             | None => ret tt
             end
        else ret tt) ;;;
       respond 200 (PMessage "Candidato eliminado exitosamente"))
    (fun error => console_error "Error al eliminar candidato:" ;;;
                  respond 500 (PMessage "Error interno del servidor")).

(** **** src/routes/evaluations.js *)

(** [reevaluateSchema.validate(req.body)] *)
Definition validate_reevaluate (applicationId : option string) : string + string :=
  match applicationId with
  | None => inl "El ID de la aplicación es requerido"
  | Some id =>
      if id =? "" then inl (not_allowed_empty "applicationId")
      else if negb (is_uuid E id) then inl "ID de aplicación inválido"
      else inr id
  end.

Definition MODEL_TEXT : string := "gemini-1.5-flash".

Definition update_evaluation (applicationId : uuid) (e : Evaluation) (model : string)
  : database -> outcome (list evaluation_row * database) :=
  fun d => (row <- evaluation_values applicationId e model d ;;
            let d' := update_evaluations row d in
            Return (select_evaluation applicationId d', d'))%js.

(** POST /api/evaluations/reevaluate (lines 277-408) *)
Definition reevaluate (u : user) (body_applicationId : option string) : M response :=
  catch
    (match validate_reevaluate body_applicationId with
     | inl message => error_body 400 message
     | inr applicationId =>
         applicationCheck <-
           query OpSelectApplication (selecting (select_application applicationId)) ;;
         match applicationCheck with
         | [] => error_body 404 "Aplicación no encontrada"
         | (application, jr) :: _ =>
             if forbidden u (role_created_by jr)
             then error_body 403 "No tienes permisos para re-evaluar esta aplicación"
             else
               match cv_text application with
               | None | Some "" =>
                   error_body 400 "No hay texto del CV disponible para evaluar"
               | Some _ =>
                   catch
                     (emit (EvScore ClientGemini) ;;;
                      evaluation <-
                        lift (Gemini.evaluateCVWithText (JSON_parse E) (gemini E)) ;;
                      existingEvaluation <-
                        query OpSelectEvaluation
                              (selecting (select_evaluation applicationId)) ;;
                      if (0 <? length existingEvaluation)%nat
                      then
                        result <- query OpUpdateEvaluation
                                    (update_evaluation applicationId evaluation MODEL_TEXT) ;;
                        respond 200 (PEvaluation (head result))
                      else
                        result <- query OpInsertEvaluation
                                    (insert_evaluation applicationId evaluation MODEL_TEXT) ;;
                        respond 200 (PEvaluation (Some result)))
                     (fun evalError =>
                        console_error "❌ Error re-evaluando CV para aplicación" ;;;
                        error_body 500 "Error procesando la evaluación del CV")
               end
         end
     end)
    (fun error => console_error "Error en re-evaluación:" ;;;
                  error_body 500 "Error interno del servidor").

(** A request from its first line to the point where the event loop has
    nothing left to run. *)
Definition serve (handler : M response) : M response :=
  r <- handler ;;
  run_immediates true ;;;
  ret r.

End Handlers.

(** *** Reading a run *)

Definition no_locals : locals := {| cvFilePath := ""; cvText := ""; applicationId := "" |}.

(** A world at rest with nothing logged or traced yet. *)
Definition start (d : database) (b : gmap string string) (n : nat) : world :=
  idle d b [] [] n no_locals.

(** The same environment with another scoring side: parser, provider's
    answers, scheduling of the queued task, fate of the evaluation's INSERT. *)
Definition with_scoring (E : env) (parse : string -> option jsval)
    (g : Groq.completion) (m : Gemini.generation) (e : bool) (x : option error) : env :=
  {| JSON_parse := parse; is_uuid := is_uuid E; is_email := is_email E;
     gen_uuid := gen_uuid E; getPublicUrl := getPublicUrl E; pdfParse := pdfParse E;
     fails := fun o => match o with
                       | OpInsertEvaluation => x
                       | _ => fails E o
                       end;
     upload_result := upload_result E; remove_result := remove_result E;
     groq := g; gemini := m; early := e |}.

Definition is_commit (e : event) : bool :=
  match e with EvCall OpCommit _ => true | _ => false end.
Definition is_committed (e : event) : bool :=
  match e with EvCall OpCommit true => true | _ => false end.
Definition is_remove (e : event) : bool :=
  match e with EvRemove _ _ => true | _ => false end.
Definition is_storage (e : event) : bool :=
  match e with EvUpload _ _ | EvRemove _ _ => true | _ => false end.
Definition is_scoring (e : event) : bool :=
  match e with EvScore _ => true | _ => false end.

(** In the history [h], every [target] event comes after some [trigger]
    event ([seen] says one came before [h]). *)
Fixpoint each_after (trigger target : event -> bool) (seen : bool) (h : list event) : bool :=
  match h with
  | [] => true
  | e :: h => (if target e then seen else true)
              && each_after trigger target (seen || trigger e) h
  end.


(** At most one application per (job role, candidate email). *)
Fixpoint unique_pairs (apps : list application) : bool :=
  match apps with
  | [] => true
  | a :: rest =>
      negb (existsb (fun a' => (app_job_role_id a' =? app_job_role_id a)
                               && (candidate_email a' =? candidate_email a)) rest)
      && unique_pairs rest
  end.

End Pipeline.

(** ** The pagination of the list routes *)

(** GET /api/applications (applications.js, lines 283-285 and 352-364); the
    list routes of evaluations.js compute the same. The Numbers here are
    exact integers: they are those of JavaScript as long as page, limit and
    their product are at most 2^53, beyond which a double is rounded. *)
Module Listing.

(** [a - b] and [a * b] on Numbers. *)
Definition minus (a b : number) : number :=
  match a, b with
  | Int x, Int y => Int (x - y)
  | _, _ => NaN
  end.

Definition times (a b : number) : number :=
  match a, b with
  | Int x, Int y => Int (x * y)
  | _, _ => NaN
  end.

(** [Math.ceil(a / b)] for integers, [b] positive. *)
Definition ceil_div (a b : number) : number :=
  match a, b with
  | Int x, Int y => Int (- ((- x) / y))
  | _, _ => NaN
  end.

(** [a < b]: false when either is [NaN]. *)
Definition less (a b : number) : bool :=
  match a, b with
  | Int x, Int y => (x <? y)%Z
  | _, _ => false
  end.

(** A query parameter, or the default of the destructuring. *)
Definition parameter (given : option string) (by_default : Z) : option jsval :=
  match given with
  | Some s => Some (JStr s)
  | None => Some (JNum by_default)
  end.

Definition pageNum (page : option string) : number :=
  Math_max 1 (parseInt (parameter page 1)).

Definition limitNum (limit : option string) : number :=
  Math_min 50 (Math_max 1 (parseInt (parameter limit 10))).

Definition offset (page limit : option string) : number :=
  times (minus (pageNum page) (Int 1)) (limitNum limit).

Record pagination : Type := {
  page : number;
  limit : number;
  total : Z;
  totalPages : number;
  hasNext : bool;
  hasPrev : bool;
}.

(** The [pagination] object of the response, for the [total] the COUNT
    query returned. *)
Definition paginate (page limit : option string) (total : Z) : pagination :=
  let totalPages := ceil_div (Int total) (limitNum limit) in
  {| page := pageNum page;
     limit := limitNum limit;
     total := total;
     totalPages := totalPages;
     hasNext := less (pageNum page) totalPages;
     hasPrev := less (Int 1) (pageNum page) |}.

End Listing.

(** ** Notions the statements about the handlers use *)

(** [s] has no character [c]. *)
Fixpoint lacks (c : ascii) (s : string) : bool :=
  match s with
  | EmptyString => true
  | String a rest => negb (Ascii.eqb a c) && lacks c rest
  end.

(** The value of a decimal numeral read from the left, after [acc]. *)
Fixpoint numeral_value (d : Decimal.uint) (acc : Z) : Z :=
  match d with
  | Decimal.Nil => acc
  | Decimal.D0 d => numeral_value d (acc * 10 + 0)
  | Decimal.D1 d => numeral_value d (acc * 10 + 1)
  | Decimal.D2 d => numeral_value d (acc * 10 + 2)
  | Decimal.D3 d => numeral_value d (acc * 10 + 3)
  | Decimal.D4 d => numeral_value d (acc * 10 + 4)
  | Decimal.D5 d => numeral_value d (acc * 10 + 5)
  | Decimal.D6 d => numeral_value d (acc * 10 + 6)
  | Decimal.D7 d => numeral_value d (acc * 10 + 7)
  | Decimal.D8 d => numeral_value d (acc * 10 + 8)
  | Decimal.D9 d => numeral_value d (acc * 10 + 9)
  end.

(** A submission that passes the checks made before the transaction: a PDF
    is attached, the fields are valid, the role is active and no
    application of this email for this role is stored. *)
Definition accepted (E : Pipeline.env) (req : Pipeline.post_request)
                    (d : Pipeline.database) : Prop :=
  exists f v,
    Pipeline.post_file req = Some f
    /\ Pipeline.mimetype f = "application/pdf"
    /\ Pipeline.validate_create E (Pipeline.post_body req) = inr v
    /\ Pipeline.select_active_role (Pipeline.v_jobRoleId v) d <> []
    /\ Pipeline.select_duplicates (Pipeline.v_jobRoleId v) (Pipeline.v_candidateEmail v) d = [].

(** The application [id] exists and [u] is an admin or the creator of its
    job role. *)
Definition permitted (u : Pipeline.user) (id : string) (d : Pipeline.database) : Prop :=
  exists a jr rest,
    Pipeline.select_application id d = (a, jr) :: rest
    /\ (Pipeline.profile_role u = Some "admin"
        \/ Pipeline.role_created_by jr = Pipeline.user_id u).

Definition is_uploaded (e : Pipeline.event) : bool :=
  match e with Pipeline.EvUpload _ true => true | _ => false end.
Definition is_connected (e : Pipeline.event) : bool :=
  match e with Pipeline.EvCall Pipeline.OpConnect true => true | _ => false end.
Definition is_release (e : Pipeline.event) : bool :=
  match e with Pipeline.EvRelease => true | _ => false end.

(** Every client taken from the pool in [h] was released, and no
    transaction is left open in [w]. *)
Definition settled (w : Pipeline.world) : Prop :=
  Pipeline.tx w = None
  /\ Pipeline.immediates w = []
  /\ length (List.filter is_connected (Pipeline.history w))
     = length (List.filter is_release (Pipeline.history w)).

(** ** What a well-formed evaluation is *)

(** A score that is an integer of [0,100] and [n] strengths and weaknesses. *)
Definition well_formed (n : nat) (e : Evaluation) : Prop :=
  (exists z, score e = Int z /\ (0 <= z <= 100)%Z)
  /\ length (strengths e) = n /\ length (weaknesses e) = n.

(** The fallback's summary asks for a manual review. *)
Definition asks_manual_review (e : Evaluation) : Prop :=
  exists s, summary e = Some (JStr s) /\ includes s "revisión manual" = true.

(** ** Sample answers of the providers *)

Module Samples.

Definition field (key value : string) : string := quoted key +:+ ": " +:+ value.

(** The text [{"score": 85, "strengths": ["React"], "weaknesses": ["Sin
    experiencia en ventas", "Sin inglés"]}] of an answer with one strength. *)
Definition one_strength_text : string :=
  "{" +:+ field "score" "85" +:+ ", "
      +:+ field "strengths" ("[" +:+ quoted "React" +:+ "]") +:+ ", "
      +:+ field "weaknesses" ("[" +:+ quoted "Sin experiencia en ventas" +:+ ", "
                                  +:+ quoted "Sin inglés" +:+ "]") +:+ "}".

Definition one_strength : jsval :=
  JObj [("score", JNum 85);
        ("strengths", JArr [JStr "React"]);
        ("weaknesses", JArr [JStr "Sin experiencia en ventas"; JStr "Sin inglés"])].

(** The same answer with the score in words: [{"score": "alto", ...}]. *)
Definition worded_score_text : string :=
  "{" +:+ field "score" (quoted "alto") +:+ ", "
      +:+ field "strengths" ("[" +:+ quoted "React" +:+ ", " +:+ quoted "Node.js" +:+ "]")
      +:+ ", "
      +:+ field "weaknesses" ("[" +:+ quoted "Sin inglés" +:+ ", "
                                  +:+ quoted "Sin liderazgo" +:+ "]") +:+ "}".

Definition worded_score : jsval :=
  JObj [("score", JStr "alto");
        ("strengths", JArr [JStr "React"; JStr "Node.js"]);
        ("weaknesses", JArr [JStr "Sin inglés"; JStr "Sin liderazgo"])].

(** A candidate who matches nothing: [{"score": 0, "strengths": [...],
    "weaknesses": [...], "summary": "..."}]. *)
Definition zero_score_text : string :=
  "{" +:+ field "score" "0" +:+ ", "
      +:+ field "strengths" ("[" +:+ quoted "Puntual" +:+ ", " +:+ quoted "Motivado"
                                 +:+ ", " +:+ quoted "Organizado" +:+ "]") +:+ ", "
      +:+ field "weaknesses" ("[" +:+ quoted "Sin experiencia" +:+ ", "
                                  +:+ quoted "Sin formación" +:+ ", "
                                  +:+ quoted "Sin idiomas" +:+ "]") +:+ ", "
      +:+ field "summary" (quoted "El CV no guarda relación con el puesto.") +:+ "}".

Definition zero_score : jsval :=
  JObj [("score", JNum 0);
        ("strengths", JArr [JStr "Puntual"; JStr "Motivado"; JStr "Organizado"]);
        ("weaknesses", JArr [JStr "Sin experiencia"; JStr "Sin formación"; JStr "Sin idiomas"]);
        ("summary", JStr "El CV no guarda relación con el puesto.")].

(** An answer with a score above the scale, one strength and weaknesses
    in words: [{"score": 140, "strengths": ["React"], "weaknesses":
    "ninguna"}]. *)
Definition overrated : jsval :=
  JObj [("score", JNum 140); ("strengths", JArr [JStr "React"]);
        ("weaknesses", JStr "ninguna")].

(** A complete answer with three strengths and two weaknesses. *)
Definition generous : jsval :=
  JObj [("score", JNum 85);
        ("strengths", JArr [JStr "React"; JStr "Node.js"; JStr "SQL"]);
        ("weaknesses", JArr [JStr "Sin inglés"; JStr "Sin liderazgo"])].

(** A complete answer that mentions a safety certificate. *)
Definition safety_text : string :=
  "{" +:+ field "score" "70" +:+ ", "
      +:+ field "strengths" ("[" +:+ quoted "Certificado Food Safety" +:+ ", "
                                 +:+ quoted "Puntual" +:+ "]") +:+ ", "
      +:+ field "weaknesses" ("[" +:+ quoted "Sin inglés" +:+ ", "
                                  +:+ quoted "Sin liderazgo" +:+ "]") +:+ "}".

(** An answer in prose. *)
Definition prose_text : string := "Lo siento, no puedo evaluar este CV.".

(** [JSON.parse] on the sample texts; the prose is a [SyntaxError]. *)
Definition JSON_parse (text : string) : option jsval :=
  if text =? one_strength_text then Some one_strength
  else if text =? worded_score_text then Some worded_score
  else if text =? zero_score_text then Some zero_score
  else None.

End Samples.

(** ** Sample worlds and requests *)

Module Scenario.

Import Pipeline.

Definition uuid_of (n : nat) : string :=
  "00000000-0000-4000-8000-00000000000" +:+ decimal (Z.of_nat n).

Definition role1 : uuid := "11111111-1111-4111-8111-111111111111".
Definition recruiter : uuid := "22222222-2222-4222-8222-222222222222".

Definition healthy (o : op) : option error := None.

(** An environment: which calls fail, what the storage client and the
    providers answer, when the queued task runs. *)
Definition environment (faults : op -> option error) (up rm : storage_result)
    (g : Groq.completion) (m : Gemini.generation) (e : bool) : env :=
  {| JSON_parse := Samples.JSON_parse;
     is_uuid := fun s => (String.length s =? 36)%nat;
     is_email := fun s => includes s "@";
     gen_uuid := uuid_of;
     getPublicUrl := fun key =>
       "https://project.supabase.co/storage/v1/object/public/cvs/" +:+ key;
     pdfParse := fun pdfBuffer => "Texto de " +:+ pdfBuffer;
     fails := faults; upload_result := up; remove_result := rm;
     groq := g; gemini := m; early := e |}.

(** Everything works and both providers time out. *)
Definition calm : env :=
  environment healthy Done Done (Groq.Rejected "timeout") (Gemini.Rejected "timeout") false.

Definition only (o : op) (message : string) (o' : op) : option error :=
  match o, o' with
  | OpCommit, OpCommit | OpPdfParse, OpPdfParse
  | OpInsertApplication, OpInsertApplication => Some message
  | _, _ => None
  end.

(** COMMIT fails. *)
Definition commit_fails : env :=
  environment (only OpCommit "connection terminated") Done Done
              (Groq.Rejected "timeout") (Gemini.Rejected "timeout") false.

(** The PDF does not parse and the storage client answers the cleanup with
    an [error]. *)
Definition unreadable_pdf_unremovable : env :=
  environment (only OpPdfParse "Invalid PDF structure") Done (ReturnsError "fetch failed")
              (Groq.Rejected "timeout") (Gemini.Rejected "timeout") false.

Definition one_role : database :=
  {| job_roles := [ {| role_id := role1; role_description := "Desarrollador frontend";
                       role_status := "active"; role_created_by := recruiter |} ];
     applications := []; evaluations := [] |}.

Definition empty_bucket : gmap string string := ∅.

Definition pdf : file := {| mimetype := "application/pdf"; buffer := "%PDF-1.4" |}.
Definition png : file := {| mimetype := "image/png"; buffer := "PNG" |}.

Definition form (name email : string) : create_body :=
  {| jobRoleId := Some role1; candidateName := Some name;
     candidateEmail := Some email; candidatePhone := None |}.

Definition submission (f : file) (name email : string) : post_request :=
  {| post_file := Some f; post_body := form name email |}.

Definition ann : post_request := submission pdf "Ann Lee" "ann@example.com".
Definition bob : post_request := submission pdf "Bob Roy" "bob@example.com".

Definition owner : user := {| user_id := recruiter; profile_role := Some "recruiter" |}.

Definition new_email (email : string) : update_value :=
  {| u_status := None; u_candidateName := None; u_candidateEmail := Some email;
     u_candidatePhone := None |}.

(** The world a served request leaves. *)
Definition after (E : env) (handler : M response) (w : world) : world :=
  snd (serve E handler w).

Definition answer (E : env) (handler : M response) (w : world) : outcome response :=
  fst (serve E handler w).

Definition objects (w : world) : list (string * string) := map_to_list (bucket w).

(** The status of an answer. *)
Definition code (o : outcome response) : option nat :=
  match o with
  | Return r => Some (status r)
  | Throw _ => None
  end.

(** Who applied for what: id, job role, email. *)
Definition applicants (w : world) : list (uuid * uuid * string) :=
  map (fun a => (app_id a, app_job_role_id a, candidate_email a)) (applications (db w)).

(** A world come to rest, its log and trace put aside. *)
Definition rested (w : world) : world :=
  start (db w) (bucket w) (counter w).

Definition ann_key : string := uuid_of 0 +:+ "_Ann_Lee.pdf".


(** Ann has applied and her evaluation is stored. *)
Definition ann_applied : world :=
  rested (after calm (post_application calm ann) (start one_role empty_bucket 0)).

(** Bob has applied too. *)
Definition both_applied : world :=
  rested (after calm (post_application calm bob) ann_applied).

(** An application whose text could not be extracted. *)
Definition textless : database :=
  {| job_roles := job_roles one_role;
     applications := [ {| app_id := uuid_of 1; app_job_role_id := role1;
                          candidate_name := "Ann Lee"; candidate_email := "ann@example.com";
                          candidate_phone := None;
                          cv_file_path := "https://project.supabase.co/storage/v1/object/public/cvs/cv.pdf";
                          cv_text := Some ""; app_status := "pending" |} ];
     evaluations := [] |}.

End Scenario.

(** ** The scoring clients: facts *)

Arguments slice0 : simpl never.
Arguments Gemini.pad3 : simpl never.
Arguments Groq.filtered : simpl never.
Arguments Groq.clean : simpl never.
Arguments Groq.validate_and_clamp : simpl never.
Arguments Gemini.normalizeEvaluation : simpl never.

Lemma clamp_or_zero_range (x : number) :
  exists z, Math_max 0 (Math_min 100 (or_zero x)) = Int z /\ (0 <= z <= 100)%Z.
Proof.
  destruct x as [|z]; cbn.
  - exists 0%Z. split; [reflexivity | lia].
  - exists (Z.max 0 (Z.min 100 z)). split; [reflexivity | lia].
Qed.

Lemma clamp_range (x : number) :
  Math_max 0 (Math_min 100 x) = NaN
  \/ exists z, Math_max 0 (Math_min 100 x) = Int z /\ (0 <= z <= 100)%Z.
Proof.
  destruct x as [|z]; cbn; [now left | right].
  exists (Z.max 0 (Z.min 100 z)). split; [reflexivity | lia].
Qed.

Lemma slice0_length (n : nat) (l : list jsval) : length (slice0 n l) <= n.
Proof. unfold slice0. rewrite length_take. lia. Qed.

(** The loop that pads runs to the end with the fuel it is given. *)
Lemma push_while_short_length (fuel : nat) (l : list jsval) (filler : jsval) :
  length l <= 3 -> 3 <= length l + fuel ->
  length (Gemini.push_while_short fuel l filler) = 3.
Proof.
  revert l. induction fuel as [|fuel IH]; intros l Hle Hfuel;
    cbn [Gemini.push_while_short].
  - lia.
  - destruct (Nat.ltb_spec (length l) 3) as [Hlt|Hge].
    + apply IH; rewrite length_app; cbn; lia.
    + lia.
Qed.

Lemma pad3_length (l : list jsval) (filler : string) :
  length l <= 3 -> length (Gemini.pad3 l filler) = 3.
Proof. intros H. apply push_while_short_length; lia. Qed.

(** On an object or an array, [get] does not throw. *)
Lemma get_object (v : jsval) (key : string) :
  truthy v = true -> typeof_object v = true -> exists r, get v key = Return r.
Proof. destruct v; cbn; intros; try discriminate; eauto. Qed.

Lemma normalizeEvaluation_well_formed (v : option jsval) (e : Evaluation) :
  Gemini.normalizeEvaluation v = Return e -> well_formed 3 e.
Proof.
  unfold Gemini.normalizeEvaluation. destruct v as [v|]; [|discriminate].
  destruct (truthy v) eqn:Ht, (typeof_object v) eqn:Ho; cbn; try discriminate.
  destruct (negb (has_key "score" v) || negb (has_key "strengths" v)
            || negb (has_key "weaknesses" v)); [discriminate|].
  destruct (get_object v "score" Ht Ho) as [s ->].
  destruct (get_object v "strengths" Ht Ho) as [st ->].
  destruct (get_object v "weaknesses" Ht Ho) as [wk ->].
  destruct (get_object v "summary" Ht Ho) as [sm ->]. cbn [bind].
  intros [= <-]. unfold well_formed; cbn [score strengths weaknesses].
  split; [apply clamp_or_zero_range|].
  split; apply pad3_length, slice0_length.
Qed.

Lemma gemini_fallback_well_formed : well_formed 3 Gemini.fallback.
Proof. unfold well_formed; cbn. split; [exists 0%Z; split; [reflexivity|lia] | auto]. Qed.

(** The Gemini client resolves, and to a well-formed evaluation of three
    strengths and three weaknesses, whatever the provider does. *)
Lemma evaluateCVWithText_well_formed (JSON_parse : string -> option jsval)
                                     (up : Gemini.generation) :
  exists e, Gemini.evaluateCVWithText JSON_parse up = Return e /\ well_formed 3 e.
Proof.
  unfold Gemini.evaluateCVWithText, try_catch.
  destruct (Gemini.evaluateCVWithText_try JSON_parse up) as [e|err] eqn:Htry.
  - exists e. split; [reflexivity|].
    unfold Gemini.evaluateCVWithText_try in Htry.
    destruct (Gemini.generateContent_text up) as [text|]; cbn [bind] in Htry;
      [|discriminate].
    destruct (Gemini.parse JSON_parse text) as [v|]; cbn [bind] in Htry; [|discriminate].
    eapply normalizeEvaluation_well_formed; eassumption.
  - exists Gemini.fallback. split; [reflexivity | apply gemini_fallback_well_formed].
Qed.

(** What the inner [try] of the Groq client returns has at most two of
    each list, and a score that is [NaN] or in range. *)
Lemma validate_and_clamp_shape (JSON_parse : string -> option jsval) (text : string)
                               (e : Evaluation) :
  Groq.validate_and_clamp JSON_parse text = Return e ->
  (score e = NaN \/ exists z, score e = Int z /\ (0 <= z <= 100)%Z)
  /\ length (strengths e) <= 2 /\ length (weaknesses e) <= 2.
Proof.
  unfold Groq.validate_and_clamp.
  destruct (Groq.parse JSON_parse text) as [v|]; cbn; [|discriminate].
  destruct (get v "score") as [s|]; cbn; [|discriminate].
  destruct (get v "strengths") as [st|]; cbn; [|discriminate].
  destruct (get v "weaknesses") as [wk|]; cbn; [|discriminate].
  destruct (negb (truthy_opt s) || negb (truthy_opt st) || negb (truthy_opt wk));
    [discriminate|].
  destruct (get v "summary") as [sm|]; cbn [bind]; [|discriminate].
  intros [= <-]; cbn [score strengths weaknesses]. split; [apply clamp_range|].
  split.
  - destruct (isArray st); [apply slice0_length | cbn; lia].
  - destruct (isArray wk); [apply slice0_length | cbn; lia].
Qed.

Lemma evaluateCV_cases (JSON_parse : string -> option jsval) (up : Groq.completion) :
  Groq.evaluateCV JSON_parse up = Return Groq.error_fallback
  \/ Groq.evaluateCV JSON_parse up = Return Groq.parse_fallback
  \/ exists response e,
       up = Groq.Content (Some response)
       /\ Groq.validate_and_clamp JSON_parse (Groq.clean response) = Return e
       /\ Groq.evaluateCV JSON_parse up = Return e.
Proof.
  unfold Groq.evaluateCV, Groq.evaluateCV_try.
  destruct up as [err|[response|]]; cbn; auto.
  destruct response as [|c rest]; cbn; auto.
  destruct (Groq.filtered (String c rest)); cbn; auto.
  destruct (Groq.validate_and_clamp JSON_parse (Groq.clean (String c rest))) as [e|] eqn:Hv;
    cbn; auto.
  right; right. exists (String c rest), e. auto.
Qed.

(** The Groq client resolves too, to at most two strengths and weaknesses. *)
Lemma evaluateCV_shape (JSON_parse : string -> option jsval) (up : Groq.completion) :
  exists e, Groq.evaluateCV JSON_parse up = Return e
            /\ (score e = NaN \/ exists z, score e = Int z /\ (0 <= z <= 100)%Z)
            /\ length (strengths e) <= 2 /\ length (weaknesses e) <= 2.
Proof.
  destruct (evaluateCV_cases JSON_parse up) as [H|[H|(response & e & _ & Hv & H)]].
  - exists Groq.error_fallback. split; [exact H|]. cbn.
    split; [right; exists 0%Z; split; [reflexivity|lia] | lia].
  - exists Groq.parse_fallback. split; [exact H|]. cbn.
    split; [right; exists 50%Z; split; [reflexivity|lia] | lia].
  - exists e. split; [exact H|]. eapply validate_and_clamp_shape; eassumption.
Qed.

(** *** The claims about the scoring clients *)

(** C1 (the Groq client breaks it). The claim: for every answer of the
    provider, [evaluate] returns an integer score in [0,100] and exactly N
    strengths and N weaknesses, N = 2 for [evaluateCV]. On an answer with a
    single strength [evaluateCV] returns that single strength: [slice(0, 2)]
    truncates and nothing pads. On an answer whose score is a word it returns
    the score [NaN]. (The Gemini client keeps the claim:
    [evaluateCVWithText_well_formed].) *)
Theorem groq_evaluateCV_not_well_formed :
  Groq.evaluateCV Samples.JSON_parse (Groq.Content (Some Samples.one_strength_text))
  = Return {| score := Int 85;
              strengths := [JStr "React"];
              weaknesses := [JStr "Sin experiencia en ventas"; JStr "Sin inglés"];
              summary := Some (JStr "Evaluación completada automáticamente") |}
  /\ Groq.evaluateCV Samples.JSON_parse (Groq.Content (Some Samples.worded_score_text))
     = Return {| score := NaN;
                 strengths := [JStr "React"; JStr "Node.js"];
                 weaknesses := [JStr "Sin inglés"; JStr "Sin liderazgo"];
                 summary := Some (JStr "Evaluación completada automáticamente") |}.
Proof. split; vm_compute; reflexivity. Qed.

(** C2, as stated, fails: an answer in prose is a malformed answer, and the
    Groq client turns it into its second fallback, whose score is 50, not
    into the fallback whose score is 0. *)
Lemma groq_malformed_answer_scores_50 :
  Groq.malformed Samples.JSON_parse (Groq.Content (Some Samples.prose_text))
  /\ Groq.evaluateCV Samples.JSON_parse (Groq.Content (Some Samples.prose_text))
     = Return Groq.parse_fallback
  /\ score Groq.parse_fallback = Int 50
  /\ Groq.parse_fallback <> Groq.error_fallback.
Proof.
  split; [|split; [|split]].
  - apply Groq.malformed_syntax; [discriminate | reflexivity | reflexivity].
  - vm_compute; reflexivity.
  - reflexivity.
  - discriminate.
Qed.

Lemma evaluateCV_no_answer (JSON_parse : string -> option jsval) (up : Groq.completion) :
  Groq.no_answer up -> Groq.evaluateCV JSON_parse up = Return Groq.error_fallback.
Proof.
  intros [e| | |response Hf]; try reflexivity.
  unfold Groq.evaluateCV, Groq.evaluateCV_try; cbn.
  destruct response; [reflexivity|]. now rewrite Hf.
Qed.

Lemma validate_and_clamp_incomplete (JSON_parse : string -> option jsval)
                                    (text : string) (v : jsval) :
  JSON_parse text = Some v -> Groq.complete v = false ->
  exists err, Groq.validate_and_clamp JSON_parse text = Throw err.
Proof.
  intros Hp Hc. unfold Groq.validate_and_clamp, Groq.parse. rewrite Hp.
  destruct v; cbn; eauto. cbn in Hc.
  destruct (truthy_opt (lookup_field "score" fields)),
           (truthy_opt (lookup_field "strengths" fields)),
           (truthy_opt (lookup_field "weaknesses" fields)); cbn in *;
    try discriminate; eauto.
Qed.

Lemma evaluateCV_malformed (JSON_parse : string -> option jsval) (up : Groq.completion) :
  Groq.malformed JSON_parse up -> Groq.evaluateCV JSON_parse up = Return Groq.parse_fallback.
Proof.
  intros [response Hne Hf Hp | response v Hne Hf Hp Hc];
    unfold Groq.evaluateCV, Groq.evaluateCV_try; cbn;
    (destruct response as [|c rest]; [congruence|]); rewrite Hf.
  - unfold Groq.validate_and_clamp, Groq.parse. now rewrite Hp.
  - destruct (validate_and_clamp_incomplete _ _ _ Hp Hc) as [err ->]. reflexivity.
Qed.

Lemma normalizeEvaluation_incomplete (v : jsval) :
  Gemini.complete v = false -> exists err, Gemini.normalizeEvaluation (Some v) = Throw err.
Proof.
  unfold Gemini.complete, Gemini.normalizeEvaluation. intros Hc.
  destruct (negb (truthy v) || negb (typeof_object v)); [eauto|].
  destruct (has_key "score" v), (has_key "strengths" v), (has_key "weaknesses" v);
    cbn in *; try discriminate; eauto.
Qed.

Lemma evaluateCVWithText_failure (JSON_parse : string -> option jsval)
                                 (up : Gemini.generation) :
  Gemini.failure JSON_parse up ->
  Gemini.evaluateCVWithText JSON_parse up = Return Gemini.fallback.
Proof.
  intros [e|e|text Hp|text v Hp Hc];
    unfold Gemini.evaluateCVWithText, Gemini.evaluateCVWithText_try, Gemini.parse;
    cbn; try reflexivity.
  - now rewrite Hp.
  - rewrite Hp; cbn. now destruct (normalizeEvaluation_incomplete v Hc) as [err ->].
Qed.

(** C2, amended. Neither client ever throws. The Gemini client turns every
    failure (transport error, timeout, blocked, unparsable or incomplete
    answer) into its one fallback, of score 0. The Groq client has two
    fallbacks: the one of score 0 when no answer reaches [JSON.parse]
    (transport error, timeout, no content, filtered text), the one of score
    50 when the answer is not valid JSON or not a complete evaluation. All
    three summaries say that a manual review is needed. *)
Theorem evaluate_never_raises_and_falls_back (JSON_parse : string -> option jsval) :
  (forall up, exists e, Groq.evaluateCV JSON_parse up = Return e)
  /\ (forall up, Groq.no_answer up ->
                 Groq.evaluateCV JSON_parse up = Return Groq.error_fallback)
  /\ (forall up, Groq.malformed JSON_parse up ->
                 Groq.evaluateCV JSON_parse up = Return Groq.parse_fallback)
  /\ (forall up, exists e, Gemini.evaluateCVWithText JSON_parse up = Return e)
  /\ (forall up, Gemini.failure JSON_parse up ->
                 Gemini.evaluateCVWithText JSON_parse up = Return Gemini.fallback)
  /\ (score Groq.error_fallback = Int 0 /\ asks_manual_review Groq.error_fallback)
  /\ (score Groq.parse_fallback = Int 50 /\ asks_manual_review Groq.parse_fallback)
  /\ (score Gemini.fallback = Int 0 /\ asks_manual_review Gemini.fallback).
Proof.
  repeat split.
  - intros up. destruct (evaluateCV_shape JSON_parse up) as (e & He & _). eauto.
  - apply evaluateCV_no_answer.
  - apply evaluateCV_malformed.
  - intros up. destruct (evaluateCVWithText_well_formed JSON_parse up) as (e & He & _). eauto.
  - apply evaluateCVWithText_failure.
  - eexists; split; [reflexivity | vm_compute; reflexivity].
  - eexists; split; [reflexivity | vm_compute; reflexivity].
  - eexists; split; [reflexivity | vm_compute; reflexivity].
Qed.

(** C10. A well-formed answer of the provider whose [score] is 0, or any
    other falsy value, fails the test [!evaluation.score] of the Groq
    client, whatever its strengths and weaknesses: [evaluateCV] returns the
    second fallback, of score 50, and never the score 0 of the answer. *)
Theorem groq_falsy_score_becomes_50
    (JSON_parse : string -> option jsval) (response : string)
    (fields : list (string * jsval)) (v : jsval) :
  response <> EmptyString ->
  Groq.filtered response = false ->
  JSON_parse (Groq.clean response) = Some (JObj fields) ->
  lookup_field "score" fields = Some v ->
  truthy v = false ->
  Groq.evaluateCV JSON_parse (Groq.Content (Some response)) = Return Groq.parse_fallback
  /\ score Groq.parse_fallback = Int 50.
Proof.
  intros Hne Hf Hp Hs Ht. split; [|reflexivity].
  apply evaluateCV_malformed.
  eapply Groq.malformed_incomplete; [exact Hne | exact Hf | exact Hp |].
  cbn. now rewrite Hs; cbn; rewrite Ht.
Qed.

Lemma groq_falsy_score_becomes_50_witness :
  Groq.evaluateCV Samples.JSON_parse (Groq.Content (Some Samples.zero_score_text))
  = Return Groq.parse_fallback
  /\ score Groq.parse_fallback = Int 50.
Proof.
  apply (groq_falsy_score_becomes_50 Samples.JSON_parse Samples.zero_score_text
           [("score", JNum 0);
            ("strengths", JArr [JStr "Puntual"; JStr "Motivado"; JStr "Organizado"]);
            ("weaknesses", JArr [JStr "Sin experiencia"; JStr "Sin formación";
                                 JStr "Sin idiomas"]);
            ("summary", JStr "El CV no guarda relación con el puesto.")]
           (JNum 0)).
  - discriminate.
  - vm_compute; reflexivity.
  - vm_compute; reflexivity.
  - reflexivity.
  - reflexivity.
Defined.

(** ** Running a handler symbolically *)

(** The head of a run is reduced as far as the environment decides it; the
    worlds in it are kept in normal form. *)
Ltac reduce_io t :=
  eval lazy head beta iota zeta delta
    [Pipeline.catch Pipeline.mbind Pipeline.ret Pipeline.throw Pipeline.finally
     Pipeline.read Pipeline.modify Pipeline.emit Pipeline.console_error Pipeline.lift
     Pipeline.query Pipeline.query_now Pipeline.yield Pipeline.run_immediates
     Pipeline.start_tasks Pipeline.start_task Pipeline.finish_tasks Pipeline.finish_task
     Pipeline.setImmediate Pipeline.selecting
     Pipeline.client_query Pipeline.logQuery Pipeline.BEGIN Pipeline.COMMIT
     Pipeline.ROLLBACK Pipeline.getClient Pipeline.transaction
     Pipeline.storage_upload Pipeline.storage_remove Pipeline.uploadToSupabaseStorage
     Pipeline.extractTextFromPDF Pipeline.respond Pipeline.error_body Pipeline.uuidv4
     Pipeline.set_cvFilePath Pipeline.set_cvText Pipeline.set_applicationId
     Pipeline.insert_application_returning Pipeline.create_application
     Pipeline.post_handler Pipeline.multer_single Pipeline.error_middleware
     Pipeline.post_application Pipeline.serve Pipeline.insert_evaluation
     Pipeline.insert_application Pipeline.put_application Pipeline.delete_rows_and_file
     Pipeline.delete_application Pipeline.delete_candidate Pipeline.reevaluate
     Pipeline.update_evaluation Pipeline.evaluation_values
     Pipeline.validate_reevaluate
     Pipeline.post_file Pipeline.post_body Pipeline.immediates Pipeline.tx
     Pipeline.JSON_parse Pipeline.is_uuid Pipeline.is_email Pipeline.gen_uuid
     Pipeline.getPublicUrl Pipeline.pdfParse Pipeline.fails Pipeline.upload_result
     Pipeline.remove_result Pipeline.groq Pipeline.gemini Pipeline.early
     Pipeline.with_scoring Pipeline.start Pipeline.idle
     JS.bind JS.try_catch negb andb orb fst snd app]
  in t.

Ltac reduce_data t :=
  eval cbv beta iota zeta delta
    [Pipeline.idle Pipeline.start Pipeline.no_locals
     Pipeline.set_db Pipeline.set_tx Pipeline.set_bucket Pipeline.set_console
     Pipeline.set_trace Pipeline.set_immediates Pipeline.set_counter Pipeline.set_frame
     Pipeline.waiting Pipeline.view Pipeline.db Pipeline.tx Pipeline.bucket Pipeline.console Pipeline.trace
     Pipeline.immediates Pipeline.counter Pipeline.frame Pipeline.history
     Pipeline.cvFilePath Pipeline.cvText Pipeline.applicationId
     Pipeline.app_id Pipeline.app_job_role_id Pipeline.candidate_name
     Pipeline.candidate_email Pipeline.candidate_phone Pipeline.cv_file_path
     Pipeline.cv_text Pipeline.app_status
     Pipeline.task_applicationId Pipeline.task_cvText Pipeline.task_description
     Pipeline.dr_status Pipeline.dr_message Pipeline.dr_cvFilePath
     Pipeline.status Pipeline.body Pipeline.post_file Pipeline.post_body
     Pipeline.apply_write Pipeline.add_evaluation Pipeline.update_evaluations
     Pipeline.update_applications
     Pipeline.job_roles Pipeline.applications Pipeline.evaluations
     Pipeline.ev_application_id Pipeline.ev_score Pipeline.ev_strengths
     Pipeline.ev_weaknesses Pipeline.ev_summary Pipeline.ev_model_used
     Pipeline.JSON_parse Pipeline.is_uuid Pipeline.is_email Pipeline.gen_uuid
     Pipeline.getPublicUrl Pipeline.pdfParse Pipeline.fails Pipeline.upload_result
     Pipeline.remove_result Pipeline.groq Pipeline.gemini Pipeline.early
     Pipeline.with_scoring
     fold_left app rev fst snd]
  in t.

Lemma validate_create_env (E E' : Pipeline.env) (b : Pipeline.create_body) :
  Pipeline.is_uuid E = Pipeline.is_uuid E' ->
  Pipeline.is_email E = Pipeline.is_email E' ->
  Pipeline.validate_create E b = Pipeline.validate_create E' b.
Proof. unfold Pipeline.validate_create. intros -> ->. reflexivity. Qed.

(** A value already decided for an environment that validates alike. *)
Ltac same_validation x :=
  lazymatch x with
  | Pipeline.validate_create ?E1 ?b =>
      match goal with
      | H : Pipeline.validate_create ?E2 b = _ |- _ =>
          rewrite (validate_create_env E1 E2 b eq_refl eq_refl), H
      end
  end.

(** A closed test is computed. *)
Ltac decide_closed x :=
  lazymatch x with
  | String.eqb _ _ => idtac
  | Nat.eqb _ _ => idtac
  | Nat.ltb _ _ => idtac
  | Nat.leb _ _ => idtac
  end;
  let v := eval vm_compute in x in
  lazymatch v with
  | true => change x with true
  | false => change x with false
  end.

Ltac head_scrutinee t :=
  lazymatch t with
  | match ?x with _ => _ end =>
      match x with
      | _ => head_scrutinee x
      | _ => x
      end
  | ?f _ => head_scrutinee f
  end.

(** One step of a run [T = (r, w') -> _]: reduce, or decide the value the
    run waits for, from a hypothesis when there is one. *)
Ltac step :=
  lazymatch goal with
  | |- ?T = _ -> _ =>
      let T1 := reduce_io T in
      let T' := reduce_data T1 in
      first
        [ progress change T with T'
        | let x := head_scrutinee T in
          let x' := reduce_data x in
          first
            [ progress change x with x'
            | match goal with H : x = _ |- _ => rewrite H end
            | same_validation x
            | decide_closed x
            | destruct x eqn:? ] ]
  end.

Ltac exec := repeat step.

(** Name the result of the run in the goal and start running it. *)
Ltac run_of t :=
  let r := fresh "r" in
  let w := fresh "w'" in
  let H := fresh "Hrun" in
  destruct t as [r w] eqn:H; revert H.

Ltac run_goal :=
  lazymatch goal with
  | |- match ?t with _ => _ end => run_of t
  | |- match ?t with _ => _ end = _ => run_of t
  | |- ?t = (_, _) => run_of t
  | |- fst ?t = _ => run_of t
  | |- snd ?t = _ => run_of t
  end.

Ltac finish :=
  let H := fresh in
  intros H; injection H as <- <-;
  match goal with |- ?G => let G' := reduce_data G in change G' end.

(** A conjunction of closed facts, each computed. *)
Ltac compute_all :=
  cbv zeta;
  repeat lazymatch goal with |- _ /\ _ => split end;
  vm_compute; reflexivity.

Import Pipeline.

(** *** The claims about the submission *)





(** C4 (the code breaks it). The claim: when a step after the upload fails,
    the transaction is rolled back, the uploaded key is removed, and a
    failure of that removal is logged and not propagated. Here the PDF does
    not parse and the storage client answers the removal with an [error]:
    the answer is the 500 of the parse failure, no row is stored, the
    object stays in the bucket, and the log has no line about the cleanup:
    the handler never looks at what [remove] returns. *)
Theorem failed_cleanup_is_not_logged :
  let E := Scenario.unreadable_pdf_unremovable in
  let w := start Scenario.one_role Scenario.empty_bucket 0 in
  Scenario.answer E (post_application E Scenario.ann) w
  = Return {| status := 500; body := PError "Error interno del servidor" |}
  /\ db (Scenario.after E (post_application E Scenario.ann) w) = Scenario.one_role
  /\ Scenario.objects (Scenario.after E (post_application E Scenario.ann) w)
     = [(Scenario.ann_key, "%PDF-1.4")]
  /\ console (Scenario.after E (post_application E Scenario.ann) w)
     = ["Error creando aplicación:"; "Error extrayendo texto del PDF:"]
  /\ history (Scenario.after E (post_application E Scenario.ann) w)
     = [EvCall OpSelectRole true; EvCall OpSelectDuplicate true; EvCall OpConnect true;
        EvCall OpBegin true; EvUpload Scenario.ann_key true; EvCall OpPdfParse false;
        EvRemove Scenario.ann_key false; EvCall OpRollback true; EvRelease;
        EvRespond 500].
Proof. compute_all. Qed.

(** C5 (the code breaks it). The claim: the stored file is deleted only
    after the transaction that deletes the rows has committed. In DELETE
    /api/applications/:id the removal is inside the callback of
    [transaction]: here COMMIT fails after it, the rows are rolled back and
    stay, the answer is a 500, and the file is gone. *)
Theorem delete_removes_the_file_before_commit :
  let E := Scenario.commit_fails in
  let w := Scenario.ann_applied in
  let w' := Scenario.after E (delete_application E Scenario.owner (Scenario.uuid_of 1)) w in
  Scenario.objects w = [(Scenario.ann_key, "%PDF-1.4")]
  /\ Scenario.answer E (delete_application E Scenario.owner (Scenario.uuid_of 1)) w
     = Return {| status := 500; body := PError "Error interno del servidor" |}
  /\ db w' = db w
  /\ length (applications (db w')) = 1
  /\ Scenario.objects w' = []
  /\ history w'
     = [EvCall OpSelectApplication true; EvCall OpConnect true; EvCall OpBegin true;
        EvCall OpDeleteEvaluations true; EvCall OpDeleteApplication true;
        EvRemove Scenario.ann_key true; EvCall OpCommit false; EvCall OpRollback true;
        EvRelease; EvRespond 500].
Proof. compute_all. Qed.

(** C6 (the code breaks it). The claim: a file that is not a PDF yields
    InvalidInput, a 400. multer hands the error of its [fileFilter] to
    [next]: the route handler and its mapping of that message to a 400 never
    run, the error middleware of the server answers, and the status is 500.
    Nothing is stored or uploaded. *)
Theorem non_pdf_is_answered_500
    (E : env) (content : string) (form : create_body)
    (d : database) (b : gmap string string) (n : nat) :
  post_application E {| post_file := Some {| mimetype := "image/png"; buffer := content |};
                        post_body := form |}
                   (start d b n)
  = (Return {| status := 500; body := PError "Solo se permiten archivos PDF" |},
     {| db := d; tx := None; bucket := b; console := ["Error:"];
        trace := [EvRespond 500]; immediates := []; counter := n;
        frame := no_locals |}).
Proof. reflexivity. Qed.

(** *** The claims about the evaluations *)

(** C7, as stated, fails: the submission scores with the Groq client and
    [reevaluate] with the Gemini client. With both providers down, the row
    the submission stores has two strengths and two weaknesses, and the row
    [reevaluate] stores for the same application has three. *)
Lemma rows_of_two_and_of_three :
  let E := Scenario.calm in
  let w := Scenario.ann_applied in
  let w' := Scenario.after E (reevaluate E Scenario.owner (Some (Scenario.uuid_of 1))) w in
  map (fun row => (ev_model_used row, length (ev_strengths row), length (ev_weaknesses row)))
      (evaluations (db w))
  = [("llama-3.1-8b-instant", 2, 2)]
  /\ map (fun row => (ev_model_used row, length (ev_strengths row),
                       length (ev_weaknesses row)))
         (evaluations (db w'))
     = [("gemini-1.5-flash", 3, 3)].
Proof. compute_all. Qed.

Lemma in_add_row {A : Type} (rows : list A) (row x : A) :
  In x (add_row rows row) -> In x rows \/ x = row.
Proof.
  unfold add_row. intros H. apply in_app_or in H as [H|[H|[]]]; auto.
Qed.

Ltac old_or_new :=
  let row := fresh "row" in
  let Hin := fresh "Hin" in
  intros row Hin;
  first
    [ left; exact Hin
    | apply in_add_row in Hin as [Hin | ->]; [left; exact Hin | right]
    | apply in_map_iff in Hin as (? & <- & Hin);
      match goal with |- context [if ?c then _ else _] => destruct c end;
      [right | left; exact Hin] ].

Lemma validate_and_clamp_two (JSON_parse : string -> option jsval) (text : string)
                             (v : jsval) (e : Evaluation) :
  JSON_parse text = Some v ->
  Groq.short_lists v = false ->
  Groq.validate_and_clamp JSON_parse text = Return e ->
  length (strengths e) = 2 /\ length (weaknesses e) = 2.
Proof.
  unfold Groq.validate_and_clamp, Groq.parse. intros -> Hshort. cbn [bind].
  destruct v as [ | ? | ? | ? | ? | fields]; cbn [get bind truthy_opt negb orb];
    try discriminate.
  cbn [Groq.short_lists] in Hshort. apply orb_false_iff in Hshort as [Hst Hwk].
  destruct (negb (truthy_opt (lookup_field "score" fields))
            || negb (truthy_opt (lookup_field "strengths" fields))
            || negb (truthy_opt (lookup_field "weaknesses" fields))); [discriminate|].
  intros [= <-]. cbn [strengths weaknesses]. split.
  - destruct (lookup_field "strengths" fields) as [[ | ? | ? | ? | l | ?]|];
      cbn [isArray items]; try reflexivity.
    cbn [Groq.short] in Hst. apply Nat.ltb_ge in Hst.
    unfold slice0. rewrite length_take. lia.
  - destruct (lookup_field "weaknesses" fields) as [[ | ? | ? | ? | l | ?]|];
      cbn [isArray items]; try reflexivity.
    cbn [Groq.short] in Hwk. apply Nat.ltb_ge in Hwk.
    unfold slice0. rewrite length_take. lia.
Qed.

(** Unless the answer lists fewer than two strengths or weaknesses, the
    Groq client resolves to exactly two of each. *)
Lemma evaluateCV_two (JSON_parse : string -> option jsval) (up : Groq.completion) :
  (forall response v,
      up = Groq.Content (Some response) ->
      JSON_parse (Groq.clean response) = Some v -> Groq.short_lists v = false) ->
  exists e, Groq.evaluateCV JSON_parse up = Return e
            /\ length (strengths e) = 2 /\ length (weaknesses e) = 2.
Proof.
  intros Hlong.
  destruct (evaluateCV_cases JSON_parse up) as [H|[H|(response & e & Hup & Hv & H)]].
  - exists Groq.error_fallback. split; [exact H|]. split; reflexivity.
  - exists Groq.parse_fallback. split; [exact H|]. split; reflexivity.
  - exists e. split; [exact H|].
    destruct (JSON_parse (Groq.clean response)) as [v|] eqn:Hparse.
    + exact (validate_and_clamp_two JSON_parse _ v e Hparse (Hlong response v Hup Hparse) Hv).
    + unfold Groq.validate_and_clamp, Groq.parse in Hv. rewrite Hparse in Hv.
      discriminate Hv.
Qed.

(** C7, amended. The length is fixed by the client, not pipeline-wide:
    every evaluation row [reevaluate] stores or overwrites comes from the
    Gemini client, is marked gemini-1.5-flash and has exactly three
    strengths and three weaknesses; every row the submission stores comes
    from the Groq client, is marked llama-3.1-8b-instant and has exactly
    two of each, for every answer of the provider that does not list fewer
    than two strengths or fewer than two weaknesses. *)
Theorem rows_have_the_length_of_their_client
    (E : env) (req : post_request) (u : user) (applicationId : option string)
    (d : database) (b : gmap string string) (n : nat) :
  (forall response v,
      groq E = Groq.Content (Some response) ->
      JSON_parse E (Groq.clean response) = Some v -> Groq.short_lists v = false) ->
  (let '(_, w') := serve E (post_application E req) (start d b n) in
   forall row, In row (evaluations (db w')) ->
     In row (evaluations d)
     \/ (ev_model_used row = "llama-3.1-8b-instant"
         /\ length (ev_strengths row) = 2 /\ length (ev_weaknesses row) = 2))
  /\ (let '(_, w') := serve E (reevaluate E u applicationId) (start d b n) in
      forall row, In row (evaluations (db w')) ->
        In row (evaluations d)
        \/ (ev_model_used row = MODEL_TEXT
            /\ length (ev_strengths row) = 3 /\ length (ev_weaknesses row) = 3)).
Proof.
  intros Hlong.
  destruct E as [parse0 uu em gen url pdf fl up rm g0 m0 e0]. cbn [groq JSON_parse] in Hlong.
  split.
  - destruct (evaluateCV_two parse0 g0 Hlong) as (ev & Hev & Hs & Hw). clear Hlong.
    run_goal. exec.
    all: finish.
    all: old_or_new; cbn; auto.
  - clear Hlong.
    destruct (evaluateCVWithText_well_formed parse0 m0) as (ev & Hev & _ & Hs & Hw).
    run_goal. exec.
    all: finish.
    all: old_or_new; cbn; auto.
Qed.

Lemma rows_have_the_length_of_their_client_witness :
  let E := with_scoring Scenario.calm (fun _ => Some Samples.generous)
                        (Groq.Content (Some "{}")) (Gemini.Rejected "timeout") false None in
  ((let '(_, w') := serve E (post_application E Scenario.ann)
                          (start Scenario.one_role Scenario.empty_bucket 0) in
    forall row, In row (evaluations (db w')) ->
      In row (evaluations Scenario.one_role)
      \/ (ev_model_used row = "llama-3.1-8b-instant"
          /\ length (ev_strengths row) = 2 /\ length (ev_weaknesses row) = 2))
   /\ (let '(_, w') := serve E (reevaluate E Scenario.owner (Some (Scenario.uuid_of 1)))
                             (start Scenario.one_role Scenario.empty_bucket 0) in
       forall row, In row (evaluations (db w')) ->
         In row (evaluations Scenario.one_role)
         \/ (ev_model_used row = MODEL_TEXT
             /\ length (ev_strengths row) = 3 /\ length (ev_weaknesses row) = 3)))
  /\ map (fun row => (ev_score row, ev_strengths row, length (ev_weaknesses row)))
         (evaluations (db (Scenario.after E (post_application E Scenario.ann)
                                          (start Scenario.one_role Scenario.empty_bucket 0))))
     = [(85%Z, [JStr "React"; JStr "Node.js"], 2)].
Proof.
  split.
  - apply (rows_have_the_length_of_their_client
             (with_scoring Scenario.calm (fun _ => Some Samples.generous)
                           (Groq.Content (Some "{}")) (Gemini.Rejected "timeout") false None)
             Scenario.ann Scenario.owner (Some (Scenario.uuid_of 1))
             Scenario.one_role Scenario.empty_bucket 0).
    intros response v Hg Hv. injection Hv as <-. reflexivity.
  - vm_compute; reflexivity.
Defined.

(** C8. For an application whose stored text is NULL or empty, and an actor
    allowed to re-evaluate it, [reevaluate] answers 400, no text to
    evaluate, having only read the application: the scoring client is not
    called and no evaluation is read, inserted or updated. *)
Theorem reevaluate_without_text_is_refused
    (E : env) (u : user) (id : string) (a : application) (jr : job_role)
    (others : list (application * job_role))
    (d : database) (b : gmap string string) (n : nat) :
  id <> EmptyString ->
  is_uuid E id = true ->
  fails E OpSelectApplication = None ->
  select_application id d = (a, jr) :: others ->
  forbidden u (role_created_by jr) = false ->
  cv_text a = None \/ cv_text a = Some EmptyString ->
  serve E (reevaluate E u (Some id)) (start d b n)
  = (Return {| status := 400;
               body := PError "No hay texto del CV disponible para evaluar" |},
     {| db := d; tx := None; bucket := b; console := [];
        trace := [EvRespond 400; EvCall OpSelectApplication true];
        immediates := []; counter := n; frame := no_locals |}).
Proof.
  intros Hne Hid Hsel Happ Hperm Htext.
  destruct E as [parse0 uu em gen url pdf fl up rm g0 m0 e0]. cbn in Hid, Hsel.
  apply String.eqb_neq in Hne.
  destruct a as [aid arole aname amail aphone apath atext astatus]. cbn in Htext.
  destruct Htext as [-> | ->]; run_goal; exec; finish; reflexivity.
Qed.

Lemma reevaluate_without_text_is_refused_witness :
  serve Scenario.calm (reevaluate Scenario.calm Scenario.owner (Some (Scenario.uuid_of 1)))
        (start Scenario.textless Scenario.empty_bucket 5)
  = (Return {| status := 400;
               body := PError "No hay texto del CV disponible para evaluar" |},
     {| db := Scenario.textless; tx := None; bucket := Scenario.empty_bucket; console := [];
        trace := [EvRespond 400; EvCall OpSelectApplication true];
        immediates := []; counter := 5; frame := no_locals |}).
Proof.
  eapply (reevaluate_without_text_is_refused Scenario.calm Scenario.owner
            (Scenario.uuid_of 1)).
  - discriminate.
  - reflexivity.
  - reflexivity.
  - vm_compute; reflexivity.
  - reflexivity.
  - right; reflexivity.
Defined.

(** *** The claim about the update *)

(** C9. Strictly sequential requests break the rule of one application per
    job role and email. Ann and Bob have applied for the same role, each
    answered 201, and the pairs are distinct; a second submission of Ann is
    answered 409. PUT /api/applications/:id then sets Bob's email to Ann's
    without any check and is answered 200: two applications now carry the
    same job role and the same email. *)
Theorem update_breaks_one_application_per_email :
  let E := Scenario.calm in
  let fresh := start Scenario.one_role Scenario.empty_bucket 0 in
  let put := put_application E Scenario.owner (Scenario.uuid_of 3)
                             (Scenario.new_email "ann@example.com") in
  Scenario.code (Scenario.answer E (post_application E Scenario.ann) fresh) = Some 201
  /\ Scenario.code (Scenario.answer E (post_application E Scenario.bob) Scenario.ann_applied)
     = Some 201
  /\ Scenario.applicants Scenario.both_applied
     = [(Scenario.uuid_of 1, Scenario.role1, "ann@example.com");
        (Scenario.uuid_of 3, Scenario.role1, "bob@example.com")]
  /\ unique_pairs (applications (db Scenario.both_applied)) = true
  /\ Scenario.code (Scenario.answer E (post_application E Scenario.ann) Scenario.both_applied)
     = Some 409
  /\ Scenario.code (Scenario.answer E put Scenario.both_applied) = Some 200
  /\ Scenario.applicants (Scenario.after E put Scenario.both_applied)
     = [(Scenario.uuid_of 1, Scenario.role1, "ann@example.com");
        (Scenario.uuid_of 3, Scenario.role1, "ann@example.com")]
  /\ unique_pairs (applications (db (Scenario.after E put Scenario.both_applied))) = false.
Proof. compute_all. Qed.

(** ** More about the scoring clients *)

(** *** [parseInt(String(n))] *)

(** The digits of a numeral, most significant first, added to [acc]. *)
Lemma parse_digits_numeral (d : Decimal.uint) (acc : Z) :
  parse_digits 10 (NilEmpty.string_of_uint d) (Some acc) = Some (numeral_value d acc).
Proof.
  revert acc. induction d; intros acc; cbn [NilEmpty.string_of_uint numeral_value];
    [reflexivity | ..]; cbn [parse_digits]; apply IHd.
Qed.

Lemma of_uint_acc_numeral (d : Decimal.uint) (acc : positive) :
  Z.pos (Pos.of_uint_acc d acc) = numeral_value d (Z.pos acc).
Proof.
  revert acc. induction d; intros acc; cbn [Pos.of_uint_acc numeral_value];
    [reflexivity | ..]; rewrite IHd; f_equal; lia.
Qed.

Lemma of_uint_numeral (d : Decimal.uint) :
  Z.of_N (Pos.of_uint d) = numeral_value d 0.
Proof.
  induction d; cbn [Pos.of_uint numeral_value]; try reflexivity; try exact IHd;
    cbn [Z.of_N]; apply of_uint_acc_numeral.
Qed.

Lemma numeral_of_positive (p : positive) : numeral_value (Pos.to_uint p) 0 = Z.pos p.
Proof. rewrite <- of_uint_numeral, DecimalPos.Unsigned.of_to. reflexivity. Qed.

Lemma parse_digits_first (c : ascii) (rest : string) (k : Z) :
  digit_value 10 c = Some k ->
  parse_digits 10 (String c rest) None = parse_digits 10 rest (Some k).
Proof. intros H. cbn [parse_digits]. rewrite H. reflexivity. Qed.

Lemma parse_digits_next (c : ascii) (rest : string) (acc k : Z) :
  digit_value 10 c = Some k ->
  parse_digits 10 (String c rest) (Some acc) = parse_digits 10 rest (Some (acc * 10 + k)%Z).
Proof. intros H. cbn [parse_digits]. rewrite H. reflexivity. Qed.

(** A numeral is read back: no white space, no sign, no [0x] in front. *)
Lemma parseInt_numeral (d : Decimal.uint) :
  d <> Decimal.Nil ->
  parseInt_string (NilEmpty.string_of_uint d) = Int (numeral_value d 0)
  /\ parseInt_string (String "-" (NilEmpty.string_of_uint d)) = Int (- numeral_value d 0).
Proof.
  intros Hd. unfold parseInt_string.
  destruct d as [|d|d|d|d|d|d|d|d|d|d]; [congruence | destruct d | ..];
    cbn [NilEmpty.string_of_uint];
    cbv -[parse_digits NilEmpty.string_of_uint numeral_value Z.mul Z.opp];
    (erewrite parse_digits_first by reflexivity);
    (try erewrite parse_digits_next by reflexivity);
    rewrite ?parse_digits_numeral;
    cbn [parse_digits numeral_value];
    (split;
     [ f_equal; rewrite Z.mul_1_l
     | f_equal; change (-1)%Z with (- (1))%Z; rewrite Z.mul_opp_l, Z.mul_1_l; f_equal ]);
    reflexivity.
Qed.

(** [parseInt(String(n)) = n] for every integer below 10^21 in magnitude,
    where [String] gives the plain numeral. *)
Lemma parseInt_number (z : Z) :
  (Z.abs z < 10 ^ 21)%Z -> parseInt (Some (JNum z)) = Int z.
Proof.
  intros Hz. unfold parseInt, ToString_opt, ToString, number_to_string.
  destruct (Z.ltb_spec (Z.abs z) (10 ^ 21)) as [_|Hge]; [|lia].
  unfold decimal. destruct z as [|p|p]; [reflexivity | ..];
    cbn [Z.to_int NilZero.string_of_int];
    pose proof (DecimalPos.Unsigned.to_uint_nonnil p) as Hnil;
    destruct (parseInt_numeral (Pos.to_uint p) Hnil) as [Hpos Hneg];
    unfold NilZero.string_of_uint;
    (destruct (Pos.to_uint p) eqn:Hd; [congruence | ..]); rewrite <- Hd in *;
    rewrite ?Hpos, ?Hneg, numeral_of_positive; reflexivity.
Qed.

(** *** Integer scores and list lengths *)

Lemma pad3_slice (l : list jsval) (filler : string) :
  Gemini.pad3 (slice0 3 l) filler = (take 3 l ++ replicate (3 - length l) (JStr filler))%list.
Proof. destruct l as [|a [|b [|c l]]]; reflexivity. Qed.

(** [normalizeEvaluation] on an object with an integer score below 10^21
    in absolute value: the score is clamped to [0,100]; each list keeps its
    first three elements in order and is filled to three with the
    placeholder (a value that is no array counts as the empty list); a falsy
    summary is replaced. *)
Theorem normalizeEvaluation_clamps_and_pads
    (fields : list (string * jsval)) (z : Z) (st wk : jsval) :
  lookup_field "score" fields = Some (JNum z) ->
  (Z.abs z < 10 ^ 21)%Z ->
  lookup_field "strengths" fields = Some st ->
  lookup_field "weaknesses" fields = Some wk ->
  Gemini.normalizeEvaluation (Some (JObj fields))
  = Return {|
      score := Int (Z.max 0 (Z.min 100 z));
      strengths := (take 3 (items (Some st))
                    ++ replicate (3 - length (items (Some st))) (JStr "Análisis pendiente"))%list;
      weaknesses := (take 3 (items (Some wk))
                     ++ replicate (3 - length (items (Some wk))) (JStr "Información limitada"))%list;
      summary := if truthy_opt (lookup_field "summary" fields)
                 then lookup_field "summary" fields
                 else Some (JStr "Evaluación completada automáticamente.") |}.
Proof.
  intros Hs Hz Hst Hwk. unfold Gemini.normalizeEvaluation, has_key.
  cbn [truthy typeof_object negb orb get bind]. rewrite Hs, Hst, Hwk.
  rewrite !bool_decide_eq_true_2 by eauto. cbn [negb orb].
  rewrite parseInt_number by exact Hz. cbn [or_zero Math_min Math_max].
  f_equal. f_equal.
  - destruct st as [ | ? | ? | ? | l | l ]; cbn [isArray items]; apply pad3_slice.
  - destruct wk as [ | ? | ? | ? | l | l ]; cbn [isArray items]; apply pad3_slice.
Qed.

Lemma normalizeEvaluation_clamps_and_pads_witness :
  Gemini.normalizeEvaluation (Some Samples.overrated)
  = Return {|
      score := Int 100;
      strengths := [JStr "React"; JStr "Análisis pendiente"; JStr "Análisis pendiente"];
      weaknesses := [JStr "Información limitada"; JStr "Información limitada";
                     JStr "Información limitada"];
      summary := Some (JStr "Evaluación completada automáticamente.") |}.
Proof.
  apply (normalizeEvaluation_clamps_and_pads
           [("score", JNum 140); ("strengths", JArr [JStr "React"]);
            ("weaknesses", JStr "ninguna")]
           140 (JArr [JStr "React"]) (JStr "ninguna")).
  - reflexivity.
  - reflexivity.
  - reflexivity.
  - reflexivity.
Defined.

(** [evaluateCV] on an answer that is not empty, passes the content filter
    (no "safe" in it) and parses to an object with a non-zero integer score
    below 10^21 in absolute value and two arrays: the score is clamped to
    [0,100] and each list is cut to its first two elements, and not
    padded. *)
Theorem evaluateCV_clamps_and_cuts
    (JSON_parse : string -> option jsval) (response : string)
    (fields : list (string * jsval)) (z : Z) (ss ws : list jsval) :
  response <> EmptyString ->
  Groq.filtered response = false ->
  JSON_parse (Groq.clean response) = Some (JObj fields) ->
  lookup_field "score" fields = Some (JNum z) ->
  z <> 0%Z -> (Z.abs z < 10 ^ 21)%Z ->
  lookup_field "strengths" fields = Some (JArr ss) ->
  lookup_field "weaknesses" fields = Some (JArr ws) ->
  Groq.evaluateCV JSON_parse (Groq.Content (Some response))
  = Return {|
      score := Int (Z.max 0 (Z.min 100 z));
      strengths := take 2 ss;
      weaknesses := take 2 ws;
      summary := if truthy_opt (lookup_field "summary" fields)
                 then lookup_field "summary" fields
                 else Some (JStr "Evaluación completada automáticamente") |}.
Proof.
  intros Hne Hf Hp Hs Hz0 Hz Hst Hwk.
  unfold Groq.evaluateCV, Groq.evaluateCV_try. cbn [Groq.create bind].
  destruct response as [|c rest]; [congruence|]. rewrite Hf.
  unfold Groq.validate_and_clamp, Groq.parse. rewrite Hp.
  cbn [get bind]. rewrite Hs, Hst, Hwk. cbn [truthy_opt truthy negb orb].
  apply Z.eqb_neq in Hz0. rewrite Hz0. cbn [negb orb try_catch isArray items].
  rewrite parseInt_number by exact Hz. reflexivity.
Qed.

Lemma evaluateCV_clamps_and_cuts_witness :
  Groq.evaluateCV Samples.JSON_parse (Groq.Content (Some Samples.one_strength_text))
  = Return {|
      score := Int 85;
      strengths := [JStr "React"];
      weaknesses := [JStr "Sin experiencia en ventas"; JStr "Sin inglés"];
      summary := Some (JStr "Evaluación completada automáticamente") |}.
Proof.
  apply (evaluateCV_clamps_and_cuts Samples.JSON_parse Samples.one_strength_text
           [("score", JNum 85); ("strengths", JArr [JStr "React"]);
            ("weaknesses", JArr [JStr "Sin experiencia en ventas"; JStr "Sin inglés"])]
           85 [JStr "React"] [JStr "Sin experiencia en ventas"; JStr "Sin inglés"]).
  - discriminate.
  - vm_compute; reflexivity.
  - vm_compute; reflexivity.
  - reflexivity.
  - discriminate.
  - reflexivity.
  - reflexivity.
  - reflexivity.
Defined.

(** *** The content filter of [evaluateCV] *)

Lemma append_nil_l (s : string) : "" +:+ s = s.
Proof. reflexivity. Qed.

Lemma append_cons (c : ascii) (s t : string) : String c s +:+ t = String c (s +:+ t).
Proof. reflexivity. Qed.

Lemma append_nil_r (s : string) : s +:+ "" = s.
Proof.
  induction s as [|c s IH]; [reflexivity|]. rewrite append_cons, IH. reflexivity.
Qed.

Lemma append_assoc (s t u : string) : (s +:+ t) +:+ u = s +:+ t +:+ u.
Proof.
  induction s as [|c s IH]; [reflexivity|]. rewrite !append_cons, IH. reflexivity.
Qed.

Lemma trimStart_keeps (pre : string) (c : ascii) (rest : string) :
  is_white_space c = false ->
  exists pre', trimStart (pre +:+ String c rest) = pre' +:+ String c rest.
Proof.
  intros Hc. induction pre as [|a pre IH].
  - exists EmptyString. rewrite append_nil_l. cbn [trimStart]. rewrite Hc. reflexivity.
  - rewrite append_cons. cbn [trimStart]. destruct (is_white_space a).
    + exact IH.
    + exists (String a pre). reflexivity.
Qed.

Lemma rev_append_acc (a acc : string) : rev_append a acc = rev_append a "" +:+ acc.
Proof.
  revert acc. induction a as [|c a IH]; intros acc; cbn [rev_append].
  - reflexivity.
  - rewrite IH, (IH (String c "")). rewrite append_assoc. reflexivity.
Qed.

Lemma reverse_app (a b : string) : reverse (a +:+ b) = reverse b +:+ reverse a.
Proof.
  unfold reverse. induction a as [|c a IH].
  - rewrite append_nil_l. cbn [rev_append]. rewrite append_nil_r. reflexivity.
  - rewrite append_cons. cbn [rev_append].
    rewrite (rev_append_acc (a +:+ b)), (rev_append_acc a (String c "")), IH.
    rewrite append_assoc. reflexivity.
Qed.

Lemma trim_keeps (pre post : string) (c1 c2 c3 c4 : ascii) :
  is_white_space c1 = false -> is_white_space c4 = false ->
  exists a b, trim (pre +:+ String c1 (String c2 (String c3 (String c4 post))))
              = a +:+ String c1 (String c2 (String c3 (String c4 b))).
Proof.
  intros H1 H4. unfold trim.
  destruct (trimStart_keeps pre c1 (String c2 (String c3 (String c4 post))) H1) as [a ->].
  change (String c1 (String c2 (String c3 (String c4 post))))
    with (String c1 (String c2 (String c3 (String c4 ""))) +:+ post).
  rewrite !reverse_app.
  change (reverse (String c1 (String c2 (String c3 (String c4 "")))))
    with (String c4 (String c3 (String c2 (String c1 "")))).
  rewrite append_assoc.
  change (String c4 (String c3 (String c2 (String c1 ""))) +:+ reverse a)
    with (String c4 (String c3 (String c2 (String c1 (reverse a))))).
  destruct (trimStart_keeps (reverse post) c4 (String c3 (String c2 (String c1 (reverse a)))) H4)
    as [b ->].
  change (String c4 (String c3 (String c2 (String c1 (reverse a)))))
    with (String c4 (String c3 (String c2 (String c1 ""))) +:+ reverse a).
  rewrite !reverse_app.
  change (reverse (String c4 (String c3 (String c2 (String c1 "")))))
    with (String c1 (String c2 (String c3 (String c4 "")))).
  exists (reverse (reverse a)), (reverse b).
  rewrite append_assoc. reflexivity.
Qed.

Lemma toLowerCase_app (a b : string) : toLowerCase (a +:+ b) = toLowerCase a +:+ toLowerCase b.
Proof.
  induction a as [|c a IH]; [reflexivity|].
  rewrite append_cons. cbn [toLowerCase]. rewrite IH. reflexivity.
Qed.

Lemma includes_app (a s p : string) : startsWith s p = true -> includes (a +:+ s) p = true.
Proof.
  intros H. induction a as [|c a IH].
  - rewrite append_nil_l. destruct s; cbn [includes]; rewrite H; reflexivity.
  - rewrite append_cons. cbn [includes]. rewrite IH. apply orb_true_r.
Qed.

Lemma lower_not_white_space (c l : ascii) :
  lower c = l -> is_white_space l = false -> is_white_space c = false.
Proof.
  intros <-. destruct c as [[] [] [] [] [] [] [] []]; vm_compute; congruence.
Qed.

(** The content filter of [evaluateCV] (line 91): an answer whose text has
    the letters "safe" anywhere, in any mix of upper and lower case, is
    thrown away for the fallback of score 0, whatever JSON it carries. *)
Theorem evaluateCV_drops_answers_with_safe
    (JSON_parse : string -> option jsval) (pre word post : string) :
  toLowerCase word = "safe" ->
  Groq.evaluateCV JSON_parse (Groq.Content (Some (pre +:+ word +:+ post)))
  = Return Groq.error_fallback.
Proof.
  intros Hw. apply evaluateCV_no_answer, Groq.no_answer_filtered. unfold Groq.filtered.
  destruct word as [|c1 [|c2 [|c3 [|c4 [|c5 word]]]]]; try discriminate Hw.
  cbn [toLowerCase] in Hw. injection Hw as H1 H2 H3 H4.
  rewrite !append_cons, append_nil_l.
  destruct (trim_keeps pre post c1 c2 c3 c4) as (a & b & ->).
  - exact (lower_not_white_space c1 _ H1 eq_refl).
  - exact (lower_not_white_space c4 _ H4 eq_refl).
  - rewrite toLowerCase_app. apply includes_app.
    cbn [toLowerCase]. rewrite H1, H2, H3, H4. destruct (toLowerCase b); reflexivity.
Qed.

Lemma evaluateCV_drops_answers_with_safe_witness :
  Groq.evaluateCV Samples.JSON_parse (Groq.Content (Some Samples.safety_text))
  = Return Groq.error_fallback.
Proof.
  change Samples.safety_text
    with (substring 0 46 Samples.safety_text +:+ "Safe" +:+ substring 50 100 Samples.safety_text).
  apply (evaluateCV_drops_answers_with_safe Samples.JSON_parse
           (substring 0 46 Samples.safety_text) "Safe" (substring 50 100 Samples.safety_text)).
  reflexivity.
Defined.

(** Both Gemini entry points resolve, whatever the provider does, to an
    integer score in [0,100] with exactly three strengths and three
    weaknesses. *)
Theorem gemini_evaluations_are_well_formed
    (JSON_parse : string -> option jsval) (up : Gemini.generation) :
  (exists e, Gemini.evaluateCVWithText JSON_parse up = Return e /\ well_formed 3 e)
  /\ (exists e, Gemini.evaluateCVWithFile JSON_parse up = Return e /\ well_formed 3 e).
Proof.
  split; apply evaluateCVWithText_well_formed.
Qed.

(** [evaluateCV] resolves whatever the provider does; its score is an
    integer in [0,100] or [NaN], and it returns at most two strengths and at
    most two weaknesses. *)
Theorem evaluateCV_resolves_to_short_lists
    (JSON_parse : string -> option jsval) (up : Groq.completion) :
  exists e, Groq.evaluateCV JSON_parse up = Return e
            /\ (score e = NaN \/ exists z, score e = Int z /\ (0 <= z <= 100)%Z)
            /\ length (strengths e) <= 2 /\ length (weaknesses e) <= 2.
Proof. apply evaluateCV_shape. Qed.

(** ** More about the strings and the pagination *)

(** *** The extraction of the JSON object *)

Lemma up_to_last_close_last (body post : string) :
  lacks "}" post = true ->
  up_to_last_close (body +:+ String "}" post) = Some (body +:+ "}").
Proof.
  intros Hpost.
  assert (Hnone : up_to_last_close post = None).
  { induction post as [|c post IH]; [reflexivity|].
    cbn [lacks] in Hpost. apply andb_true_iff in Hpost as [Hc Hpost].
    cbn [up_to_last_close]. rewrite (IH Hpost).
    apply negb_true_iff in Hc. rewrite Hc. reflexivity. }
  induction body as [|c body IH].
  - rewrite !append_nil_l. cbn [up_to_last_close]. rewrite Hnone. reflexivity.
  - rewrite !append_cons. cbn [up_to_last_close]. rewrite IH. reflexivity.
Qed.

Lemma from_first_open_first (pre rest : string) :
  lacks "{" pre = true -> from_first_open (pre +:+ String "{" rest) = Some rest.
Proof.
  intros Hpre. induction pre as [|c pre IH].
  - reflexivity.
  - cbn [lacks] in Hpre. apply andb_true_iff in Hpre as [Hc Hpre].
    rewrite append_cons. cbn [from_first_open].
    apply negb_true_iff in Hc. rewrite Hc. exact (IH Hpre).
Qed.

(** The extraction of [evaluateCV] (the regular expression of line 97)
    takes the text from the first opening brace to the last closing brace:
    prose before and after a JSON object is dropped, and the object is kept
    as it is. *)
Theorem match_braces_drops_the_prose (pre body post : string) :
  lacks "{" pre = true ->
  lacks "}" post = true ->
  match_braces (pre +:+ "{" +:+ body +:+ "}" +:+ post) = Some ("{" +:+ body +:+ "}").
Proof.
  intros Hpre Hpost. unfold match_braces.
  change ("{" +:+ body +:+ "}" +:+ post) with (String "{" (body +:+ String "}" post)).
  rewrite (from_first_open_first pre _ Hpre).
  rewrite (up_to_last_close_last body post Hpost). reflexivity.
Qed.

Lemma match_braces_drops_the_prose_witness :
  match_braces ("Aquí está: " +:+ "{" +:+ Samples.field "score" "85" +:+ "}" +:+ " Saludos.")
  = Some ("{" +:+ Samples.field "score" "85" +:+ "}").
Proof.
  apply (match_braces_drops_the_prose "Aquí está: " (Samples.field "score" "85") " Saludos.").
  - reflexivity.
  - reflexivity.
Defined.

(** *** The key of the stored file *)

Lemma last_segment_from_app (s t acc : string) :
  lacks "/" t = true ->
  last_segment_from (s +:+ String "/" t) acc = t.
Proof.
  intros Ht.
  assert (Hkeep : forall acc', last_segment_from t acc' = acc').
  { clear acc. induction t as [|c t IH]; intros acc'; [reflexivity|].
    cbn [lacks] in Ht. apply andb_true_iff in Ht as [Hc Ht].
    cbn [last_segment_from]. apply negb_true_iff in Hc. rewrite Hc. apply (IH Ht). }
  revert acc. induction s as [|c s IH]; intros acc.
  - rewrite append_nil_l. cbn [last_segment_from].
    change (Ascii.eqb "/" "/") with true. cbv iota. apply Hkeep.
  - rewrite append_cons. cbn [last_segment_from].
    destruct (Ascii.eqb c "/"); apply IH.
Qed.

Lemma lacks_app (c : ascii) (s t : string) :
  lacks c s = true -> lacks c t = true -> lacks c (s +:+ t) = true.
Proof.
  intros Hs Ht. induction s as [|a s IH]; [exact Ht|].
  cbn [lacks] in Hs. apply andb_true_iff in Hs as [Ha Hs].
  rewrite append_cons. cbn [lacks]. rewrite Ha, (IH Hs). reflexivity.
Qed.

Lemma units_cases (c : ascii) : units c = 0 \/ units c = 1 \/ units c = 2.
Proof.
  unfold units.
  destruct (_ <? 128)%nat; [auto|]. destruct (_ <? 192)%nat; [auto|].
  destruct (_ <? 240)%nat; auto.
Qed.

Lemma alnum_is_ascii (c : ascii) :
  is_alnum c = true -> units c = 1 /\ Ascii.eqb c "/" = false.
Proof.
  intros Hc.
  destruct c as [[] [] [] [] [] [] [] []]; try (split; reflexivity);
    vm_compute in Hc; discriminate Hc.
Qed.

Lemma sanitize_lacks_slash (name : string) : lacks "/" (sanitize name) = true.
Proof.
  induction name as [|c name IH]; [reflexivity|].
  cbn [sanitize]. destruct (is_alnum c) eqn:Hc.
  - cbn [lacks]. destruct (alnum_is_ascii c Hc) as [_ ->]. rewrite IH. reflexivity.
  - destruct (units c) as [|[|k]]; cbn [lacks]; rewrite IH; reflexivity.
Qed.

(** The name a submission stores the file under (line 162) is one path
    segment whatever the candidate's name is, so the key that DELETE
    /api/applications/:id computes from the stored URL (line 588) is the key
    that was uploaded, when the URL ends in a slash and the key and the
    generated identifier has no slash. *)
Theorem delete_finds_the_uploaded_key (base u candidateName : string) :
  lacks "/" u = true ->
  last_segment (base +:+ "/" +:+ u +:+ "_" +:+ sanitize candidateName +:+ ".pdf")
  = u +:+ "_" +:+ sanitize candidateName +:+ ".pdf".
Proof.
  intros Hu. unfold last_segment.
  change ("/" +:+ u +:+ "_" +:+ sanitize candidateName +:+ ".pdf")
    with (String "/" (u +:+ "_" +:+ sanitize candidateName +:+ ".pdf")).
  apply last_segment_from_app.
  repeat apply lacks_app; auto using sanitize_lacks_slash.
Qed.

Lemma delete_finds_the_uploaded_key_witness :
  last_segment ("https://project.supabase.co/storage/v1/object/public/cvs" +:+ "/"
                +:+ Scenario.uuid_of 1 +:+ "_" +:+ sanitize "Ann/Lee; Jr." +:+ ".pdf")
  = Scenario.uuid_of 1 +:+ "_" +:+ sanitize "Ann/Lee; Jr." +:+ ".pdf".
Proof.
  apply (delete_finds_the_uploaded_key
           "https://project.supabase.co/storage/v1/object/public/cvs"
           (Scenario.uuid_of 1) "Ann/Lee; Jr.").
  vm_compute; reflexivity.
Defined.

(** The sanitized name has one character for each UTF-16 code unit of the
    name, and only ASCII letters, digits and underscores. *)
Theorem sanitize_keeps_length_and_alphabet (name : string) :
  String.length (sanitize name) = code_units name
  /\ forall c, In c (list_ascii_of_string (sanitize name)) ->
               is_alnum c = true \/ c = "_"%char.
Proof.
  induction name as [|a name [IHl IHc]]; cbn [sanitize code_units].
  - split; [reflexivity | intros c []].
  - destruct (is_alnum a) eqn:Ha.
    + destruct (alnum_is_ascii a Ha) as [-> _].
      cbn [String.length list_ascii_of_string]. rewrite IHl. split; [reflexivity|].
      intros c [<- | Hin]; auto.
    + destruct (units_cases a) as [-> | [-> | ->]];
        cbn [String.length list_ascii_of_string]; rewrite ?IHl; (split; [reflexivity|]);
        intros c Hin; cbn [In] in Hin; intuition auto.
Qed.

(** *** Pages *)

Lemma parameter_cases (given : option string) (by_default : Z) (lo : Z) :
  Math_max lo (parseInt (Listing.parameter given by_default)) = NaN
  \/ exists z, Math_max lo (parseInt (Listing.parameter given by_default)) = Int z /\ (lo <= z)%Z.
Proof.
  destruct (parseInt (Listing.parameter given by_default)) as [|z]; [left; reflexivity|].
  right. exists (Z.max lo z). split; [reflexivity | lia].
Qed.

(** The window of a list request, for a page and a limit whose product is
    at most 2^53, where the arithmetic of JavaScript Numbers on them is
    exact: the page is at least 1, the limit is between 1 and 50 and the
    offset is [(page - 1) * limit], which is not negative. With no
    parameters it is page 1 of 10 rows from offset 0. *)
Theorem list_window (page limit : option string) (p l : Z) :
  Listing.pageNum page = Int p ->
  Listing.limitNum limit = Int l ->
  (p * l <= 2 ^ 53)%Z ->
  (1 <= p)%Z /\ (1 <= l <= 50)%Z
  /\ Listing.offset page limit = Int ((p - 1) * l)
  /\ (0 <= (p - 1) * l <= 2 ^ 53)%Z.
Proof.
  unfold Listing.offset, Listing.limitNum, Listing.pageNum.
  destruct (parameter_cases page 1 1) as [-> | (p' & -> & Hp)]; [discriminate|].
  destruct (parameter_cases limit 10 1) as [-> | (l' & -> & Hl)]; [discriminate|].
  cbn [Math_min Listing.minus Listing.times]. intros [= <-] [= <-] Hsafe.
  repeat split; try lia; nia.
Qed.

Lemma list_window_witness :
  (1 <= 1)%Z /\ (1 <= 10 <= 50)%Z
  /\ Listing.offset None None = Int ((1 - 1) * 10)
  /\ (0 <= (1 - 1) * 10 <= 2 ^ 53)%Z.
Proof.
  apply (list_window None None 1 10).
  - vm_compute; reflexivity.
  - vm_compute; reflexivity.
  - vm_compute; discriminate.
Defined.

(** For a numeric page and limit and a count [total] that is not negative,
    [totalPages] is the least number of pages of [limit] rows that hold
    [total] rows, [hasNext] is true exactly when rows lie beyond the current
    window, and [hasPrev] exactly when the page is not the first. *)
Theorem pagination_is_exact (page limit : option string) (total p l : Z) :
  Listing.pageNum page = Int p ->
  Listing.limitNum limit = Int l ->
  (0 <= total)%Z ->
  exists pages,
    Listing.totalPages (Listing.paginate page limit total) = Int pages
    /\ ((pages - 1) * l < total <= pages * l)%Z
    /\ (Listing.hasNext (Listing.paginate page limit total) = true <-> (p * l < total)%Z)
    /\ (Listing.hasPrev (Listing.paginate page limit total) = true <-> (1 < p)%Z).
Proof.
  intros Hp Hl Ht.
  assert (Hrange : (1 <= l <= 50)%Z).
  { unfold Listing.limitNum in Hl.
    destruct (parseInt (Listing.parameter limit 10)) as [|z]; [discriminate|].
    injection Hl as <-. lia. }
  unfold Listing.paginate.
  cbn [Listing.totalPages Listing.hasNext Listing.hasPrev]. rewrite Hp, Hl.
  cbn [Listing.ceil_div Listing.less].
  exists (- (- total / l))%Z.
  pose proof (Z.mul_div_le (- total) l ltac:(lia)) as Hlow.
  pose proof (Z.mul_succ_div_gt (- total) l ltac:(lia)) as Hhigh.
  set (q := (- total / l)%Z) in *.
  split; [reflexivity|]. split; [nia|]. split.
  - rewrite Z.ltb_lt. split; intros; nia.
  - rewrite Z.ltb_lt. reflexivity.
Qed.

Lemma pagination_is_exact_witness :
  exists pages,
    Listing.totalPages (Listing.paginate (Some "2") (Some "10") 25) = Int pages
    /\ ((pages - 1) * 10 < 25 <= pages * 10)%Z
    /\ (Listing.hasNext (Listing.paginate (Some "2") (Some "10") 25) = true <-> (2 * 10 < 25)%Z)
    /\ (Listing.hasPrev (Listing.paginate (Some "2") (Some "10") 25) = true <-> (1 < 2)%Z).
Proof.
  apply (pagination_is_exact (Some "2") (Some "10") 25 2 10).
  - vm_compute; reflexivity.
  - vm_compute; reflexivity.
  - lia.
Defined.

(** ** More about the handlers *)

(** *** The submission *)

Lemma has_object_false (key : string) (b : gmap string string) :
  has_object key b = false -> b !! key = None.
Proof.
  unfold has_object. intros H. apply bool_decide_eq_false in H.
  destruct (b !! key) eqn:Hk; [exfalso; apply H; eauto | reflexivity].
Qed.

Lemma remove_put_object (key content : string) (b : gmap string string) :
  has_object key b = false -> remove_object key (put_object key content b) = b.
Proof.
  intros H. unfold remove_object, put_object. apply delete_insert_id, has_object_false, H.
Qed.

Lemma put_object_is_there (key content : string) (b : gmap string string) :
  put_object key content b !! key = Some content.
Proof. apply lookup_insert_eq. Qed.

Lemma no_duplicates (jobRoleId email : string) (d : database) :
  (0 <? length (select_duplicates jobRoleId email d))%nat = false ->
  select_duplicates jobRoleId email d = [].
Proof. destruct (select_duplicates jobRoleId email d); [reflexivity | discriminate]. Qed.

Lemma unique_pairs_add_row (apps : list application) (row : application) :
  unique_pairs apps = true ->
  List.filter (fun a => (app_job_role_id a =? app_job_role_id row)
                        && (candidate_email a =? candidate_email row)) apps = [] ->
  unique_pairs (add_row apps row) = true.
Proof.
  unfold add_row. induction apps as [|a apps IH]; intros Hu Hf; [reflexivity|].
  cbn [unique_pairs List.filter app] in *.
  apply andb_true_iff in Hu as [Ha Hu].
  destruct ((app_job_role_id a =? app_job_role_id row)
            && (candidate_email a =? candidate_email row)) eqn:Hrow; [discriminate Hf|].
  rewrite (IH Hu Hf), andb_true_r.
  rewrite existsb_app. cbn [existsb]. apply negb_true_iff in Ha. rewrite Ha.
  rewrite (String.eqb_sym (app_job_role_id row)), (String.eqb_sym (candidate_email row)), Hrow.
  reflexivity.
Qed.

Ltac accepted_here :=
  lazymatch goal with
  | Hv : validate_create _ _ = inr ?c, f : file |- accepted _ _ _ =>
      exists f, c; subst;
      split; [reflexivity|];
      split; [apply String.eqb_eq; assumption|];
      split; [assumption|];
      split; [ match goal with H : select_active_role _ _ = _ :: _ |- _ =>
                 cbn [post_body]; rewrite H; discriminate end
             | apply no_duplicates; assumption ]
  end.

(** What a run of the submission does to the rows, to the bucket and to the
    pool, in every environment. *)
Lemma submit_effects
    (E : env) (req : post_request) (d : database) (b : gmap string string) (n : nat) :
  let '(r, w') := serve E (post_application E req) (start d b n) in
  let h := history w' in
  exists resp,
    r = Return resp
    /\ (status resp = 201 \/ db w' = d)
    /\ ((db w' = d /\ bucket w' = b /\ forallb (fun e => negb (is_storage e)) h = true)
        \/ accepted E req d)
    /\ (status resp = 201 ->
        exists f v,
          post_file req = Some f
          /\ validate_create E (post_body req) = inr v
          /\ let key := gen_uuid E n +:+ "_" +:+ sanitize (v_candidateName v) +:+ ".pdf" in
             let row := {| app_id := gen_uuid E (S n);
                           app_job_role_id := v_jobRoleId v;
                           candidate_name := v_candidateName v;
                           candidate_email := v_candidateEmail v;
                           candidate_phone := v_candidatePhone v;
                           cv_file_path := getPublicUrl E key;
                           cv_text := Some (pdfParse E (buffer f));
                           app_status := "pending" |} in
             job_roles (db w') = job_roles d
             /\ applications (db w') = add_row (applications d) row
             /\ b !! key = None
             /\ bucket w' = put_object key (buffer f) b
             /\ body resp = PCreated (app_id row) (v_jobRoleId v) (v_candidateName v)
                                     (v_candidateEmail v) (v_candidatePhone v) "pending"
                                     (cv_file_path row))
    /\ (status resp = 201 \/ existsb is_commit h = true \/ bucket w' = b
        \/ remove_result E <> Done \/ exists key, getPublicUrl E key = "")
    /\ (existsb is_uploaded h = false \/ existsb is_commit h = true
        \/ existsb is_remove h = true \/ exists key, getPublicUrl E key = "")
    /\ (status resp = 201 \/ existsb is_commit h = false
        \/ exists key, b !! key = None /\ is_Some (bucket w' !! key))
    /\ existsb is_commit h && existsb is_remove h = false
    /\ (unique_pairs (applications d) = true -> unique_pairs (applications (db w')) = true)
    /\ settled w'.
Proof.
  destruct E as [parse0 uu em gen url pdf fl up rm g0 m0 e0].
  run_goal. exec.
  all: finish.
  all: eexists; split; [reflexivity|].
  all: split; [first [left; reflexivity | right; reflexivity]|].
  all: split; [first [left; split; [|split]; reflexivity | right; accepted_here]|].
  all: split;
    [ intros Hst;
      first [ discriminate Hst
            | match goal with Hv : validate_create _ _ = inr ?c, f : file |- _ =>
                exists f, c; subst;
                split; [reflexivity|]; split; [assumption|];
                split; [reflexivity|]; split; [reflexivity|];
                split; [apply has_object_false; assumption|];
                split; reflexivity
              end ] |].
  all: split;
    [ first [ left; reflexivity
            | right; left; reflexivity
            | right; right; left; first [reflexivity | apply remove_put_object; assumption]
            | right; right; right; left; discriminate
            | right; right; right; right; eexists; apply String.eqb_eq; eassumption ] |].
  all: split;
    [ first [ left; reflexivity
            | right; left; reflexivity
            | right; right; left; reflexivity
            | right; right; right; eexists; apply String.eqb_eq; eassumption ] |].
  all: split;
    [ first [ left; reflexivity
            | right; left; reflexivity
            | right; right; eexists; split;
              [apply has_object_false; eassumption | rewrite put_object_is_there; eauto] ] |].
  all: split; [reflexivity|].
  all: split;
    [ intros Hu;
      first [ exact Hu
            | apply unique_pairs_add_row; [exact Hu | apply no_duplicates; assumption] ] |].
  all: repeat split; reflexivity.
Qed.

(** *** The deletions, the update and the re-evaluation *)

Ltac permitted_here :=
  lazymatch goal with
  | Hs : select_application _ _ = (?a, ?jr) :: ?rest |- permitted _ _ _ =>
      exists a, jr, rest; split; [exact Hs|];
      match goal with
      | H : forbidden _ _ = false |- _ =>
          unfold forbidden in H; apply andb_false_iff in H as [H | H];
          apply negb_false_iff in H;
          [left; apply bool_decide_eq_true in H; exact H
          | right; apply String.eqb_eq in H; exact H]
      | H : (role_created_by _ =? user_id _) = true |- _ =>
          right; apply String.eqb_eq in H; exact H
      | H : bool_decide (profile_role _ = Some _) = true |- _ =>
          left; apply bool_decide_eq_true in H; exact H
      end
  end.

Lemma delete_application_effects
    (E : env) (u : user) (id : string) (d : database) (b : gmap string string) (n : nat) :
  let '(r, w') := serve E (delete_application E u id) (start d b n) in
  let h := history w' in
  exists resp,
    r = Return resp
    /\ (db w' = d
        \/ (status resp = 200
            /\ db w' = fold_left apply_write [DeleteEvaluations id; DeleteApplication id] d))
    /\ (status resp = 200 ->
        db w' = fold_left apply_write [DeleteEvaluations id; DeleteApplication id] d
        /\ permitted u id d)
    /\ ((db w' = d /\ bucket w' = b /\ forallb (fun e => negb (is_storage e)) h = true)
        \/ permitted u id d)
    /\ (bucket w' = b
        \/ exists a jr rest,
             select_application id d = (a, jr) :: rest
             /\ bucket w' = remove_object (last_segment (cv_file_path a)) b)
    /\ settled w'.
Proof.
  destruct E as [parse0 uu em gen url pdf fl up rm g0 m0 e0].
  run_goal. exec.
  all: finish.
  all: eexists; split; [reflexivity|].
  all: split; [first [left; reflexivity | right; split; reflexivity]|].
  all: split; [intros Hst; first [discriminate Hst | split; [reflexivity | permitted_here]]|].
  all: split; [first [left; split; [|split]; reflexivity | right; permitted_here]|].
  all: split; [first [left; reflexivity | right; do 3 eexists; split; [first [eassumption | reflexivity] | reflexivity]]|].
  all: repeat split; reflexivity.
Qed.

Lemma delete_candidate_effects
    (E : env) (u : user) (id : string) (d : database) (b : gmap string string) (n : nat) :
  let '(r, w') := serve E (delete_candidate E u id) (start d b n) in
  let h := history w' in
  exists resp,
    r = Return resp
    /\ (db w' = d
        \/ db w' = fold_left apply_write [DeleteEvaluations id; DeleteApplication id] d)
    /\ (status resp = 200 ->
        db w' = fold_left apply_write [DeleteEvaluations id; DeleteApplication id] d
        /\ permitted u id d)
    /\ ((db w' = d /\ bucket w' = b /\ forallb (fun e => negb (is_storage e)) h = true)
        \/ permitted u id d)
    /\ (bucket w' = b
        \/ exists a jr rest,
             select_application id d = (a, jr) :: rest
             /\ bucket w' = remove_object (cv_file_path a) b)
    /\ (status resp = 200 \/ bucket w' = b)
    /\ each_after is_committed is_remove false h = true
    /\ settled w'.
Proof.
  destruct E as [parse0 uu em gen url pdf fl up rm g0 m0 e0].
  run_goal. exec.
  all: finish.
  all: eexists; split; [reflexivity|].
  all: split; [first [left; reflexivity | right; reflexivity]|].
  all: split; [intros Hst; first [discriminate Hst | split; [reflexivity | permitted_here]]|].
  all: split; [first [left; split; [|split]; reflexivity | right; permitted_here]|].
  all: split; [first [left; reflexivity | right; do 3 eexists; split; [first [eassumption | reflexivity] | reflexivity]]|].
  all: split; [first [left; reflexivity | right; reflexivity]|].
  all: split; [reflexivity|].
  all: repeat split; reflexivity.
Qed.

Lemma validate_update_same (E : env) (v v' : update_value) :
  validate_update E v = inr v' -> v' = v.
Proof.
  unfold validate_update. destruct (first_error _); congruence.
Qed.

Lemma put_application_effects
    (E : env) (u : user) (id : string) (v : update_value)
    (d : database) (b : gmap string string) (n : nat) :
  let '(r, w') := serve E (put_application E u id v) (start d b n) in
  exists resp,
    r = Return resp
    /\ bucket w' = b
    /\ (db w' = d \/ (status resp = 200 /\ db w' = update_applications id v d))
    /\ (status resp = 200 ->
        db w' = update_applications id v d
        /\ permitted u id d /\ validate_update E v = inr v /\ no_updates v = false)
    /\ settled w'.
Proof.
  destruct E as [parse0 uu em gen url pdf fl up rm g0 m0 e0].
  run_goal. exec.
  all: finish.
  all: try match goal with
           | H : validate_update _ ?v = inr ?v' |- _ =>
               pose proof (validate_update_same _ _ _ H); subst v'
           end.
  all: eexists; split; [reflexivity|].
  all: split; [reflexivity|].
  all: split; [first [left; reflexivity | right; split; reflexivity]|].
  all: split;
    [ intros Hst;
      first [ discriminate Hst
            | split; [reflexivity|];
              split; [permitted_here | split; first [assumption | reflexivity]] ] |].
  all: repeat split; reflexivity.
Qed.

Lemma no_rows {A : Type} (l : list A) : (0 <? length l)%nat = false -> l = [].
Proof. destruct l; [reflexivity | discriminate]. Qed.

Lemma some_rows {A : Type} (l : list A) : (0 <? length l)%nat = true -> l <> [].
Proof. destruct l; [discriminate | intros _; discriminate]. Qed.

Lemma reevaluate_effects
    (E : env) (u : user) (applicationId : option string)
    (d : database) (b : gmap string string) (n : nat) :
  let '(r, w') := serve E (reevaluate E u applicationId) (start d b n) in
  exists resp,
    r = Return resp
    /\ bucket w' = b
    /\ job_roles (db w') = job_roles d
    /\ applications (db w') = applications d
    /\ (db w' = d \/ status resp = 200)
    /\ (db w' = d \/ exists id, applicationId = Some id /\ permitted u id d)
    /\ (status resp = 200 ->
        exists id ev z,
          applicationId = Some id
          /\ permitted u id d
          /\ Gemini.evaluateCVWithText (JSON_parse E) (gemini E) = Return ev
          /\ score ev = Int z
          /\ let row := {| ev_application_id := id; ev_score := z;
                           ev_strengths := strengths ev; ev_weaknesses := weaknesses ev;
                           ev_summary := summary ev; ev_model_used := MODEL_TEXT |} in
             (select_evaluation id d = []
              /\ evaluations (db w') = add_row (evaluations d) row)
             \/ (select_evaluation id d <> []
                 /\ evaluations (db w')
                    = map (fun e => if ev_application_id e =? id then row else e)
                          (evaluations d)))
    /\ settled w'.
Proof.
  destruct E as [parse0 uu em gen url pdf fl up rm g0 m0 e0].
  destruct (evaluateCVWithText_well_formed parse0 m0) as (ev & Hev & (z & Hz & _) & _ & _).
  run_goal. exec.
  all: finish.
  all: eexists; split; [reflexivity|].
  all: split; [reflexivity|].
  all: split; [reflexivity|].
  all: split; [reflexivity|].
  all: split; [first [left; reflexivity | right; reflexivity]|].
  all: split; [first [left; reflexivity | right; eexists; split; [reflexivity | permitted_here]]|].
  all: split;
    [ intros Hst;
      first [ discriminate Hst
            | eexists _, ev, z;
              split; [reflexivity|]; split; [permitted_here|];
              split; [exact Hev|]; split; [exact Hz|];
              first [ left; split; [apply no_rows; assumption | reflexivity]
                    | right; split; [apply some_rows; assumption | reflexivity] ] ] |].
  all: repeat split; reflexivity.
Qed.

(** *** What the submission guarantees *)

(** Opens the run of a handler in a fact [H] about it and in the goal. *)
Ltac open_run H :=
  match type of H with
  | match ?run with _ => _ end =>
      let r := fresh "r" in
      let w' := fresh "w'" in
      destruct run as [r w']; cbv zeta in H
  end.

(** POST /api/applications always answers, and the rows are as before
    unless the answer is 201. *)
Theorem submission_stores_rows_only_with_201
    (E : env) (req : post_request) (d : database) (b : gmap string string) (n : nat) :
  let '(r, w') := serve E (post_application E req) (start d b n) in
  exists resp, r = Return resp /\ (status resp = 201 \/ db w' = d).
Proof.
  pose proof (submit_effects E req d b n) as H. open_run H.
  destruct H as (resp & Hr & Hrows & _). eauto.
Qed.

(** A submission that fails a check made before the transaction (no PDF
    attached, an invalid field, a role that is not active, a duplicate)
    changes no row and no object, and the storage client is not called. *)
Theorem rejected_submission_touches_nothing
    (E : env) (req : post_request) (d : database) (b : gmap string string) (n : nat) :
  let '(r, w') := serve E (post_application E req) (start d b n) in
  accepted E req d
  \/ (db w' = d /\ bucket w' = b
      /\ forallb (fun e => negb (is_storage e)) (history w') = true).
Proof.
  pose proof (submit_effects E req d b n) as H. open_run H.
  destruct H as (resp & _ & _ & [Hsame | Hacc] & _); auto.
Qed.

(** A run of the submission answered 201 has stored exactly one more
    application: pending, with the validated fields, the text the parser
    extracted and the public URL of the key
    [<uuid>_<sanitized name>.pdf]; the key was free and now holds the
    uploaded buffer; the job roles are untouched and the response repeats
    the row. *)
Theorem created_application_is_pending_and_stored
    (E : env) (req : post_request) (d : database) (b : gmap string string) (n : nat)
    (resp : response) (w' : world) :
  serve E (post_application E req) (start d b n) = (Return resp, w') ->
  status resp = 201 ->
  exists f v,
    post_file req = Some f
    /\ validate_create E (post_body req) = inr v
    /\ let key := gen_uuid E n +:+ "_" +:+ sanitize (v_candidateName v) +:+ ".pdf" in
       let row := {| app_id := gen_uuid E (S n);
                     app_job_role_id := v_jobRoleId v;
                     candidate_name := v_candidateName v;
                     candidate_email := v_candidateEmail v;
                     candidate_phone := v_candidatePhone v;
                     cv_file_path := getPublicUrl E key;
                     cv_text := Some (pdfParse E (buffer f));
                     app_status := "pending" |} in
       job_roles (db w') = job_roles d
       /\ applications (db w') = add_row (applications d) row
       /\ b !! key = None
       /\ bucket w' = put_object key (buffer f) b
       /\ body resp = PCreated (app_id row) (v_jobRoleId v) (v_candidateName v)
                               (v_candidateEmail v) (v_candidatePhone v) "pending"
                               (cv_file_path row).
Proof.
  intros Hrun Hst. pose proof (submit_effects E req d b n) as H.
  rewrite Hrun in H. cbv zeta in H.
  destruct H as (resp' & Hr & _ & _ & Hcreated & _). injection Hr as <-.
  exact (Hcreated Hst).
Qed.

Lemma created_application_is_pending_and_stored_witness :
  applications (db (Scenario.after Scenario.calm
                      (post_application Scenario.calm Scenario.ann)
                      (start Scenario.one_role Scenario.empty_bucket 0)))
  = [ {| app_id := Scenario.uuid_of 1;
         app_job_role_id := Scenario.role1;
         candidate_name := "Ann Lee";
         candidate_email := "ann@example.com";
         candidate_phone := None;
         cv_file_path := getPublicUrl Scenario.calm Scenario.ann_key;
         cv_text := Some "Texto de %PDF-1.4";
         app_status := "pending" |} ].
Proof.
  destruct (created_application_is_pending_and_stored
              Scenario.calm Scenario.ann Scenario.one_role Scenario.empty_bucket 0
              {| status := 201;
                 body := PCreated (Scenario.uuid_of 1) Scenario.role1 "Ann Lee"
                                  "ann@example.com" None "pending"
                                  (getPublicUrl Scenario.calm Scenario.ann_key) |}
              (Scenario.after Scenario.calm (post_application Scenario.calm Scenario.ann)
                              (start Scenario.one_role Scenario.empty_bucket 0)))
    as (f & v & Hf & Hv & _ & Happs & _).
  - vm_compute; reflexivity.
  - reflexivity.
  - vm_compute in Hf, Hv. injection Hf as <-. injection Hv as <-.
    rewrite Happs. vm_compute; reflexivity.
Defined.

(** When public URLs are not empty, a submission that is not answered
    201 and never sent COMMIT has asked the storage client to remove what
    it uploaded, and when the storage client does remove what it is asked
    to, the bucket is as it was before the request. *)
Theorem failed_submission_restores_the_bucket
    (E : env) (req : post_request) (d : database) (b : gmap string string) (n : nat)
    (resp : response) (w' : world) :
  (forall key, getPublicUrl E key <> "") ->
  serve E (post_application E req) (start d b n) = (Return resp, w') ->
  status resp <> 201 ->
  existsb is_commit (history w') = false ->
  db w' = d
  /\ (existsb is_uploaded (history w') = true -> existsb is_remove (history w') = true)
  /\ (remove_result E = Done -> bucket w' = b).
Proof.
  intros Hurl Hrun Hst Hcommit. pose proof (submit_effects E req d b n) as H.
  rewrite Hrun in H. cbv zeta in H.
  destruct H as (resp' & Hr & Hrows & _ & _ & Hclean & Hasked & _). injection Hr as <-.
  split; [destruct Hrows; [contradiction | assumption]|]. split.
  - intros Hup. destruct Hasked as [H | [H | [H | [key H]]]];
      [congruence | congruence | exact H | destruct (Hurl key H)].
  - intros Hrm. destruct Hclean as [H | [H | [H | [H | [key H]]]]];
      [contradiction | congruence | exact H | destruct (H Hrm) | destruct (Hurl key H)].
Qed.

Lemma failed_submission_restores_the_bucket_witness :
  let E := Scenario.environment (Scenario.only OpPdfParse "Invalid PDF structure") Done Done
                                (Groq.Rejected "timeout") (Gemini.Rejected "timeout") false in
  let w' := Scenario.after E (post_application E Scenario.ann)
                           (start Scenario.one_role Scenario.empty_bucket 0) in
  db w' = Scenario.one_role
  /\ (existsb is_uploaded (history w') = true -> existsb is_remove (history w') = true)
  /\ (remove_result E = Done -> bucket w' = Scenario.empty_bucket).
Proof.
  apply (failed_submission_restores_the_bucket
           (Scenario.environment (Scenario.only OpPdfParse "Invalid PDF structure") Done Done
                                 (Groq.Rejected "timeout") (Gemini.Rejected "timeout") false)
           Scenario.ann Scenario.one_role Scenario.empty_bucket 0
           {| status := 500; body := PError "Error interno del servidor" |}).
  - intros key H. vm_compute in H. discriminate H.
  - vm_compute; reflexivity.
  - discriminate.
  - vm_compute; reflexivity.
Defined.

(** A submission whose COMMIT was sent and that is not answered 201 has
    stored no row and has left its upload behind: some key that was free
    now holds an object, and no removal was asked for. *)
Theorem failed_commit_leaves_the_file
    (E : env) (req : post_request) (d : database) (b : gmap string string) (n : nat)
    (resp : response) (w' : world) :
  serve E (post_application E req) (start d b n) = (Return resp, w') ->
  existsb is_commit (history w') = true ->
  status resp <> 201 ->
  db w' = d
  /\ (exists key, b !! key = None /\ is_Some (bucket w' !! key))
  /\ existsb is_remove (history w') = false.
Proof.
  intros Hrun Hcommit Hst. pose proof (submit_effects E req d b n) as H.
  rewrite Hrun in H. cbv zeta in H.
  destruct H as (resp' & Hr & Hrows & _ & _ & _ & _ & Horphan & Hboth & _).
  injection Hr as <-.
  split; [destruct Hrows; [contradiction | assumption]|].
  split.
  - destruct Horphan as [H | [H | H]]; [contradiction | congruence | exact H].
  - rewrite Hcommit in Hboth. exact Hboth.
Qed.

Lemma failed_commit_leaves_the_file_witness :
  db (Scenario.after Scenario.commit_fails
        (post_application Scenario.commit_fails Scenario.ann)
        (start Scenario.one_role Scenario.empty_bucket 0)) = Scenario.one_role
  /\ (exists key,
        Scenario.empty_bucket !! key = None
        /\ is_Some (bucket (Scenario.after Scenario.commit_fails
                              (post_application Scenario.commit_fails Scenario.ann)
                              (start Scenario.one_role Scenario.empty_bucket 0)) !! key))
  /\ existsb is_remove
       (history (Scenario.after Scenario.commit_fails
                   (post_application Scenario.commit_fails Scenario.ann)
                   (start Scenario.one_role Scenario.empty_bucket 0))) = false.
Proof.
  apply (failed_commit_leaves_the_file
           Scenario.commit_fails Scenario.ann Scenario.one_role Scenario.empty_bucket 0
           {| status := 500; body := PError "Error interno del servidor" |}).
  - vm_compute; reflexivity.
  - vm_compute; reflexivity.
  - discriminate.
Defined.

(** A submission served alone, with no other request running between its
    duplicate check and its INSERT, keeps the rule of one application per
    job role and email: if no two stored applications share both, none do
    afterwards. *)
Theorem submission_keeps_one_application_per_email
    (E : env) (req : post_request) (d : database) (b : gmap string string) (n : nat) :
  unique_pairs (applications d) = true ->
  let '(_, w') := serve E (post_application E req) (start d b n) in
  unique_pairs (applications (db w')) = true.
Proof.
  intros Hu. pose proof (submit_effects E req d b n) as H. open_run H.
  destruct H as (resp & _ & _ & _ & _ & _ & _ & _ & _ & Huniq & _). exact (Huniq Hu).
Qed.

Lemma submission_keeps_one_application_per_email_witness :
  let '(_, w') := serve Scenario.calm (post_application Scenario.calm Scenario.bob)
                        (start (db Scenario.ann_applied) (bucket Scenario.ann_applied)
                               (counter Scenario.ann_applied)) in
  unique_pairs (applications (db w')) = true.
Proof.
  apply (submission_keeps_one_application_per_email
           Scenario.calm Scenario.bob (db Scenario.ann_applied) (bucket Scenario.ann_applied)
           (counter Scenario.ann_applied)).
  vm_compute; reflexivity.
Defined.

(** *** What the deletions guarantee *)

(** The rows after the two DELETE statements of the deletion routes. *)
Lemma deleted_rows (id : uuid) (d : database) :
  fold_left apply_write [DeleteEvaluations id; DeleteApplication id] d
  = {| job_roles := job_roles d;
       applications := List.filter (fun a => negb (app_id a =? id)) (applications d);
       evaluations :=
         List.filter (fun e => negb (ev_application_id e =? id))
                     (List.filter (fun e => negb (ev_application_id e =? id))
                                  (evaluations d)) |}.
Proof. reflexivity. Qed.

Lemma deleted_is_gone (id : uuid) (d : database) :
  let d' := fold_left apply_write [DeleteEvaluations id; DeleteApplication id] d in
  select_application id d' = []
  /\ select_evaluation id d' = []
  /\ has_application id d' = false
  /\ job_roles d' = job_roles d
  /\ (forall a, In a (applications d) -> app_id a <> id -> In a (applications d'))
  /\ (forall e, In e (evaluations d) -> ev_application_id e <> id -> In e (evaluations d')).
Proof.
  cbv zeta. rewrite deleted_rows.
  unfold select_application, select_evaluation, has_application.
  cbn [applications evaluations job_roles].
  split; [|split; [|split; [|split; [reflexivity|split]]]].
  - induction (applications d) as [|a l IH]; [reflexivity|].
    cbn [List.filter]. destruct (app_id a =? id) eqn:Ha; cbn [negb]; [exact IH|].
    cbn [flat_map]. rewrite Ha, IH. reflexivity.
  - induction (evaluations d) as [|e l IH]; [reflexivity|].
    cbn [List.filter]. destruct (ev_application_id e =? id) eqn:He; cbn [negb]; [exact IH|].
    cbn [List.filter]. rewrite He. cbn [negb List.filter]. rewrite He. exact IH.
  - induction (applications d) as [|a l IH]; [reflexivity|].
    cbn [List.filter]. destruct (app_id a =? id) eqn:Ha; cbn [negb]; [exact IH|].
    cbn [existsb]. rewrite Ha, IH. reflexivity.
  - intros a Hin Hne. apply filter_In. split; [exact Hin|].
    apply negb_true_iff, String.eqb_neq, Hne.
  - intros e Hin Hne. apply filter_In. split.
    + apply filter_In. split; [exact Hin|]. apply negb_true_iff, String.eqb_neq, Hne.
    + apply negb_true_iff, String.eqb_neq, Hne.
Qed.

(** DELETE /api/applications/:id always answers, and it deletes the
    application with its evaluations or no row at all: with a 200 both
    DELETE statements are committed, with any other answer the rows are as
    before. *)
Theorem delete_application_deletes_all_or_nothing
    (E : env) (u : user) (id : string) (d : database) (b : gmap string string) (n : nat) :
  let '(r, w') := serve E (delete_application E u id) (start d b n) in
  exists resp,
    r = Return resp
    /\ ((status resp = 200
         /\ db w' = fold_left apply_write [DeleteEvaluations id; DeleteApplication id] d)
        \/ (status resp <> 200 /\ db w' = d)).
Proof.
  pose proof (delete_application_effects E u id d b n) as H. open_run H.
  destruct H as (resp & Hr & Hrows & Hok & _).
  exists resp. split; [exact Hr|].
  destruct (Nat.eq_dec (status resp) 200) as [Hst | Hst].
  - left. split; [exact Hst | apply (Hok Hst)].
  - right. split; [exact Hst|]. destruct Hrows as [H | [H _]]; [exact H | contradiction].
Qed.

(** After a deletion answered 200 the application is gone: reading it by
    id finds nothing, no evaluation of it is left, the job roles and every
    other application and evaluation are still there. *)
Theorem deleted_application_is_gone
    (E : env) (u : user) (id : string) (d : database) (b : gmap string string) (n : nat)
    (resp : response) (w' : world) :
  serve E (delete_application E u id) (start d b n) = (Return resp, w') ->
  status resp = 200 ->
  select_application id (db w') = []
  /\ select_evaluation id (db w') = []
  /\ job_roles (db w') = job_roles d
  /\ (forall a, In a (applications d) -> app_id a <> id -> In a (applications (db w')))
  /\ (forall e, In e (evaluations d) -> ev_application_id e <> id
                -> In e (evaluations (db w'))).
Proof.
  intros Hrun Hst. pose proof (delete_application_effects E u id d b n) as H.
  rewrite Hrun in H. cbv zeta in H.
  destruct H as (resp' & Hr & _ & Hok & _). injection Hr as <-.
  destruct (Hok Hst) as [-> _].
  destruct (deleted_is_gone id d) as (H1 & H2 & _ & H3 & H4 & H5). auto.
Qed.

Lemma deleted_application_is_gone_witness :
  let w' := Scenario.after Scenario.calm
              (delete_application Scenario.calm Scenario.owner (Scenario.uuid_of 1))
              (start (db Scenario.both_applied) (bucket Scenario.both_applied)
                     (counter Scenario.both_applied)) in
  select_application (Scenario.uuid_of 1) (db w') = []
  /\ select_evaluation (Scenario.uuid_of 1) (db w') = []
  /\ job_roles (db w') = job_roles (db Scenario.both_applied)
  /\ (forall a, In a (applications (db Scenario.both_applied)) ->
                app_id a <> Scenario.uuid_of 1 -> In a (applications (db w')))
  /\ (forall e, In e (evaluations (db Scenario.both_applied)) ->
                ev_application_id e <> Scenario.uuid_of 1 -> In e (evaluations (db w'))).
Proof.
  apply (deleted_application_is_gone
           Scenario.calm Scenario.owner (Scenario.uuid_of 1)
           (db Scenario.both_applied) (bucket Scenario.both_applied)
           (counter Scenario.both_applied)
           {| status := 200; body := PMessage "Aplicación eliminada exitosamente" |}).
  - vm_compute; reflexivity.
  - reflexivity.
Defined.

(** DELETE /api/candidates/:id deletes the application with its
    evaluations or no row at all, asks the storage client for a removal
    only after COMMIT succeeded, and changes no object unless it answers
    200; a 200 means the rows are deleted and the actor was an admin or the
    creator of the job role. *)
Theorem delete_candidate_removes_the_file_after_commit
    (E : env) (u : user) (id : string) (d : database) (b : gmap string string) (n : nat) :
  let '(r, w') := serve E (delete_candidate E u id) (start d b n) in
  exists resp,
    r = Return resp
    /\ (db w' = d
        \/ db w' = fold_left apply_write [DeleteEvaluations id; DeleteApplication id] d)
    /\ each_after is_committed is_remove false (history w') = true
    /\ (status resp = 200 \/ bucket w' = b)
    /\ (status resp = 200 ->
        db w' = fold_left apply_write [DeleteEvaluations id; DeleteApplication id] d
        /\ permitted u id d).
Proof.
  pose proof (delete_candidate_effects E u id d b n) as H. open_run H.
  destruct H as (resp & Hr & Hrows & Hok & _ & _ & Hbucket & Hafter & _).
  exists resp. auto.
Qed.

(** DELETE /api/candidates/:id hands the storage client the whole stored
    [cv_file_path], not its last segment: an object under any other key,
    such as the key a submission uploaded under when the path is its public
    URL, is still in the bucket afterwards. *)
Theorem delete_candidate_keeps_other_keys
    (E : env) (u : user) (id : string) (d : database) (b : gmap string string) (n : nat)
    (a : application) (jr : job_role) (rest : list (application * job_role)) (key : string) :
  select_application id d = (a, jr) :: rest ->
  cv_file_path a <> key ->
  let '(_, w') := serve E (delete_candidate E u id) (start d b n) in
  bucket w' !! key = b !! key.
Proof.
  intros Hsel Hkey. pose proof (delete_candidate_effects E u id d b n) as H. open_run H.
  destruct H as (resp & _ & _ & _ & _ & [-> | (a' & jr' & rest' & Hsel' & ->)] & _);
    [reflexivity|].
  rewrite Hsel in Hsel'. injection Hsel' as <- <- <-.
  unfold remove_object. apply lookup_delete_ne. exact Hkey.
Qed.

Lemma delete_candidate_keeps_other_keys_witness :
  let '(_, w') := serve Scenario.calm
                        (delete_candidate Scenario.calm Scenario.owner (Scenario.uuid_of 1))
                        (start (db Scenario.ann_applied) (bucket Scenario.ann_applied)
                               (counter Scenario.ann_applied)) in
  bucket w' !! Scenario.ann_key = bucket Scenario.ann_applied !! Scenario.ann_key.
Proof.
  eapply (delete_candidate_keeps_other_keys
            Scenario.calm Scenario.owner (Scenario.uuid_of 1)
            (db Scenario.ann_applied) (bucket Scenario.ann_applied)
            (counter Scenario.ann_applied)).
  - vm_compute; reflexivity.
  - vm_compute; discriminate.
Defined.

(** When the storage client throws on the removal, DELETE
    /api/candidates/:id answers 500 although the application and its
    evaluations are deleted and committed. *)
Theorem delete_candidate_answers_500_after_deleting
    (E : env) (u : user) (id : string) (d : database) (b : gmap string string) (n : nat)
    (a : application) (jr : job_role) (rest : list (application * job_role))
    (message : string) :
  (forall o, fails E o = None) ->
  remove_result E = Throws message ->
  select_application id d = (a, jr) :: rest ->
  role_created_by jr = user_id u ->
  cv_file_path a <> "" ->
  let '(r, w') := serve E (delete_candidate E u id) (start d b n) in
  r = Return {| status := 500; body := PMessage "Error interno del servidor" |}
  /\ db w' = fold_left apply_write [DeleteEvaluations id; DeleteApplication id] d
  /\ bucket w' = b.
Proof.
  intros Hfl Hrm Hsel Howner Hpath.
  destruct E as [parse0 uu em gen url pdf fl up rm g0 m0 e0]. cbn in Hfl, Hrm. subst rm.
  pose proof (Hfl OpConnect) as H1. pose proof (Hfl OpBegin) as H2.
  pose proof (Hfl OpSelectApplication) as H3. pose proof (Hfl OpDeleteEvaluations) as H4.
  pose proof (Hfl OpDeleteApplication) as H5. pose proof (Hfl OpCommit) as H6.
  pose proof (Hfl OpRollback) as H7.
  destruct a as [aid arole aname amail aphone apath atext astatus].
  cbn in Howner, Hpath. apply String.eqb_eq in Howner. apply String.eqb_neq in Hpath.
  run_goal. exec.
  all: finish.
  all: repeat split; reflexivity.
Qed.

Lemma delete_candidate_answers_500_after_deleting_witness :
  let E := Scenario.environment Scenario.healthy Done (Throws "fetch failed")
                                (Groq.Rejected "timeout") (Gemini.Rejected "timeout") false in
  let '(r, w') := serve E (delete_candidate E Scenario.owner (Scenario.uuid_of 1))
                        (start (db Scenario.ann_applied) (bucket Scenario.ann_applied)
                               (counter Scenario.ann_applied)) in
  r = Return {| status := 500; body := PMessage "Error interno del servidor" |}
  /\ db w' = fold_left apply_write [DeleteEvaluations (Scenario.uuid_of 1);
                                    DeleteApplication (Scenario.uuid_of 1)]
                       (db Scenario.ann_applied)
  /\ bucket w' = bucket Scenario.ann_applied.
Proof.
  eapply (delete_candidate_answers_500_after_deleting
            (Scenario.environment Scenario.healthy Done (Throws "fetch failed")
                                  (Groq.Rejected "timeout") (Gemini.Rejected "timeout") false)
            Scenario.owner (Scenario.uuid_of 1)
            (db Scenario.ann_applied) (bucket Scenario.ann_applied)
            (counter Scenario.ann_applied)).
  - reflexivity.
  - reflexivity.
  - vm_compute; reflexivity.
  - reflexivity.
  - vm_compute; discriminate.
Defined.

(** *** What the update guarantees *)

Lemma update_applications_keeps (id : uuid) (v : update_value) (d : database) :
  let d' := update_applications id v d in
  job_roles d' = job_roles d
  /\ evaluations d' = evaluations d
  /\ map (fun a => (app_id a, app_job_role_id a, cv_file_path a, cv_text a)) (applications d')
     = map (fun a => (app_id a, app_job_role_id a, cv_file_path a, cv_text a)) (applications d)
  /\ (forall a, In a (applications d) -> app_id a <> id -> In a (applications d')).
Proof.
  cbv zeta. unfold update_applications. cbn [job_roles evaluations applications].
  split; [reflexivity|]. split; [reflexivity|]. split.
  - rewrite map_map. apply map_ext. intros a. destruct (app_id a =? id); reflexivity.
  - intros a Hin Hne. apply in_map_iff. exists a. split; [|exact Hin].
    apply String.eqb_neq in Hne. rewrite Hne. reflexivity.
Qed.

Lemma validate_update_sound (E : env) (v : update_value) :
  validate_update E v = inr v ->
  (forall st, u_status v = Some st -> valid_status st = true)
  /\ (forall name, u_candidateName v = Some name ->
                   2 <= code_units name <= 255)
  /\ (forall email, u_candidateEmail v = Some email -> email <> "" /\ is_email E email = true)
  /\ (forall phone, u_candidatePhone v = Some phone ->
                    phone <> "" /\ code_units phone <= 50).
Proof.
  unfold validate_update. intros H.
  destruct (u_status v) as [st|] eqn:Hst;
    [destruct (valid_status st) eqn:Hvalid; [|discriminate H]|];
    (destruct (u_candidateName v) as [name|] eqn:Hname;
     [ destruct (name =? "") eqn:Hn0; [discriminate H|];
       destruct (code_units name <? 2)%nat eqn:Hn2; [discriminate H|];
       destruct (255 <? code_units name)%nat eqn:Hn255; [discriminate H|] |]);
    (destruct (u_candidateEmail v) as [email|] eqn:Hemail;
     [ destruct (email =? "") eqn:He0; [discriminate H|];
       destruct (is_email E email) eqn:Hem; [|discriminate H] |]);
    (destruct (u_candidatePhone v) as [phone|] eqn:Hphone;
     [ destruct (phone =? "") eqn:Hp0; [discriminate H|];
       destruct (50 <? code_units phone)%nat eqn:Hp50; [discriminate H|] |]);
    clear H;
    (split; [|split; [|split]]); intros x Hx; try discriminate Hx; injection Hx as <-;
    rewrite ?Nat.ltb_ge in *; rewrite ?String.eqb_neq in *; auto with lia.
Qed.

(** PUT /api/applications/:id always answers and touches nothing but the
    name, email, phone and status of the application [id]: the bucket, the
    job roles and the evaluations are as before, no application is added or
    removed, every application keeps its id, job role, file path and text,
    the other applications are unchanged, and the rows are as before unless
    the answer is 200. *)
Theorem update_touches_only_the_named_application
    (E : env) (u : user) (id : string) (v : update_value)
    (d : database) (b : gmap string string) (n : nat) :
  let '(r, w') := serve E (put_application E u id v) (start d b n) in
  exists resp,
    r = Return resp
    /\ bucket w' = b
    /\ job_roles (db w') = job_roles d
    /\ evaluations (db w') = evaluations d
    /\ map (fun a => (app_id a, app_job_role_id a, cv_file_path a, cv_text a))
           (applications (db w'))
       = map (fun a => (app_id a, app_job_role_id a, cv_file_path a, cv_text a))
             (applications d)
    /\ (forall a, In a (applications d) -> app_id a <> id -> In a (applications (db w')))
    /\ (status resp = 200 \/ db w' = d).
Proof.
  pose proof (put_application_effects E u id v d b n) as H. open_run H.
  destruct H as (resp & Hr & Hb & Hrows & _).
  exists resp. split; [exact Hr|]. split; [exact Hb|].
  destruct Hrows as [-> | [Hst ->]].
  - repeat split; auto.
  - destruct (update_applications_keeps id v d) as (H1 & H2 & H3 & H4).
    repeat split; auto.
Qed.

(** A PUT answered 200 was asked by an admin or by the creator of the
    application's job role, has set the given fields on the application
    [id], and the fields passed the schema: a status of the enumeration, a
    name of 2 to 255 UTF-16 code units, an email the validator accepts, a
    phone of at most 50 code units. *)
Theorem update_stores_only_valid_fields
    (E : env) (u : user) (id : string) (v : update_value)
    (d : database) (b : gmap string string) (n : nat) (resp : response) (w' : world) :
  serve E (put_application E u id v) (start d b n) = (Return resp, w') ->
  status resp = 200 ->
  permitted u id d
  /\ applications (db w')
     = map (fun a => if app_id a =? id then update_row v a else a) (applications d)
  /\ (forall st, u_status v = Some st -> valid_status st = true)
  /\ (forall name, u_candidateName v = Some name -> 2 <= code_units name <= 255)
  /\ (forall email, u_candidateEmail v = Some email -> email <> "" /\ is_email E email = true)
  /\ (forall phone, u_candidatePhone v = Some phone ->
                    phone <> "" /\ code_units phone <= 50).
Proof.
  intros Hrun Hst. pose proof (put_application_effects E u id v d b n) as H.
  rewrite Hrun in H. cbv zeta in H.
  destruct H as (resp' & Hr & _ & _ & Hok & _). injection Hr as <-.
  destruct (Hok Hst) as (-> & Hperm & Hvalid & _).
  split; [exact Hperm|]. split; [reflexivity|]. exact (validate_update_sound E v Hvalid).
Qed.

Lemma update_stores_only_valid_fields_witness :
  let v := Scenario.new_email "ann@example.com" in
  let w' := Scenario.after Scenario.calm
              (put_application Scenario.calm Scenario.owner (Scenario.uuid_of 3) v)
              (start (db Scenario.both_applied) (bucket Scenario.both_applied)
                     (counter Scenario.both_applied)) in
  permitted Scenario.owner (Scenario.uuid_of 3) (db Scenario.both_applied)
  /\ applications (db w')
     = map (fun a => if app_id a =? Scenario.uuid_of 3 then update_row v a else a)
           (applications (db Scenario.both_applied))
  /\ (forall st, u_status v = Some st -> valid_status st = true)
  /\ (forall name, u_candidateName v = Some name -> 2 <= code_units name <= 255)
  /\ (forall email, u_candidateEmail v = Some email ->
                    email <> "" /\ is_email Scenario.calm email = true)
  /\ (forall phone, u_candidatePhone v = Some phone ->
                    phone <> "" /\ code_units phone <= 50).
Proof.
  eapply (update_stores_only_valid_fields
            Scenario.calm Scenario.owner (Scenario.uuid_of 3)
            (Scenario.new_email "ann@example.com")
            (db Scenario.both_applied) (bucket Scenario.both_applied)
            (counter Scenario.both_applied)).
  - vm_compute; reflexivity.
  - reflexivity.
Defined.

(** *** What the re-evaluation guarantees *)

(** POST /api/evaluations/reevaluate always answers and touches nothing
    but the evaluations: bucket, job roles and applications are as before,
    and so are the evaluations unless the answer is 200. *)
Theorem reevaluate_changes_only_evaluations
    (E : env) (u : user) (applicationId : option string)
    (d : database) (b : gmap string string) (n : nat) :
  let '(r, w') := serve E (reevaluate E u applicationId) (start d b n) in
  exists resp,
    r = Return resp
    /\ bucket w' = b
    /\ job_roles (db w') = job_roles d
    /\ applications (db w') = applications d
    /\ (status resp = 200 \/ db w' = d).
Proof.
  pose proof (reevaluate_effects E u applicationId d b n) as H. open_run H.
  destruct H as (resp & Hr & Hb & Hj & Ha & Hrows & _).
  exists resp. repeat split; auto. destruct Hrows; auto.
Qed.






(** *** Permissions and the pool *)

(** Only an admin or the creator of the application's job role changes
    anything through the update, the two deletions and the re-evaluation:
    for any other actor, and for an application that does not exist, the
    rows and the bucket are as before. *)
Theorem only_permitted_actors_change_anything
    (E : env) (u : user) (id : string) (v : update_value)
    (d : database) (b : gmap string string) (n : nat) :
  (let '(_, w') := serve E (put_application E u id v) (start d b n) in
   (db w' = d /\ bucket w' = b) \/ permitted u id d)
  /\ (let '(_, w') := serve E (delete_application E u id) (start d b n) in
      (db w' = d /\ bucket w' = b) \/ permitted u id d)
  /\ (let '(_, w') := serve E (delete_candidate E u id) (start d b n) in
      (db w' = d /\ bucket w' = b) \/ permitted u id d)
  /\ (let '(_, w') := serve E (reevaluate E u (Some id)) (start d b n) in
      (db w' = d /\ bucket w' = b) \/ permitted u id d).
Proof.
  split; [|split; [|split]].
  - pose proof (put_application_effects E u id v d b n) as H. open_run H.
    destruct H as (resp & _ & Hb & [Hd | [Hst _]] & Hok & _); [auto|].
    right. apply (Hok Hst).
  - pose proof (delete_application_effects E u id d b n) as H. open_run H.
    destruct H as (resp & _ & _ & _ & [(Hd & Hb & _) | Hperm] & _); auto.
  - pose proof (delete_candidate_effects E u id d b n) as H. open_run H.
    destruct H as (resp & _ & _ & _ & [(Hd & Hb & _) | Hperm] & _); auto.
  - pose proof (reevaluate_effects E u (Some id) d b n) as H. open_run H.
    destruct H as (resp & _ & Hb & _ & _ & _ & [Hd | (id' & Hid & Hperm)] & _); [auto|].
    injection Hid as <-. auto.
Qed.

(** After every request of the five routes no transaction is open, the
    event loop has nothing queued and every client taken from the pool has
    been released, whatever failed on the way. *)
Theorem every_request_settles
    (E : env) (u : user) (id : string) (applicationId : option string)
    (req : post_request) (v : update_value)
    (d : database) (b : gmap string string) (n : nat) :
  settled (snd (serve E (post_application E req) (start d b n)))
  /\ settled (snd (serve E (put_application E u id v) (start d b n)))
  /\ settled (snd (serve E (delete_application E u id) (start d b n)))
  /\ settled (snd (serve E (delete_candidate E u id) (start d b n)))
  /\ settled (snd (serve E (reevaluate E u applicationId) (start d b n))).
Proof.
  split; [|split; [|split; [|split]]].
  - pose proof (submit_effects E req d b n) as H. open_run H.
    destruct H as (resp & _ & _ & _ & _ & _ & _ & _ & _ & _ & Hs). exact Hs.
  - pose proof (put_application_effects E u id v d b n) as H. open_run H.
    destruct H as (resp & _ & _ & _ & _ & Hs). exact Hs.
  - pose proof (delete_application_effects E u id d b n) as H. open_run H.
    destruct H as (resp & _ & _ & _ & _ & _ & Hs). exact Hs.
  - pose proof (delete_candidate_effects E u id d b n) as H. open_run H.
    destruct H as (resp & _ & _ & _ & _ & _ & _ & _ & Hs). exact Hs.
  - pose proof (reevaluate_effects E u applicationId d b n) as H. open_run H.
    destruct H as (resp & _ & _ & _ & _ & _ & _ & _ & Hs). exact Hs.
Qed.

(** *** The schema of the submission *)

(** A body that [createApplicationSchema] accepts is returned as it is,
    and its fields are in range: the job role id is one the validator takes
    for a UUID, the name has 2 to 255 UTF-16 code units (the [length] of
    JavaScript), the email is one the validator accepts, and a phone, if
    given, is not empty and has at most 50 code units. *)
Theorem validated_submission_is_in_range (E : env) (b : create_body) (v : create_value) :
  validate_create E b = inr v ->
  jobRoleId b = Some (v_jobRoleId v) /\ is_uuid E (v_jobRoleId v) = true
  /\ candidateName b = Some (v_candidateName v)
  /\ 2 <= code_units (v_candidateName v) <= 255
  /\ candidateEmail b = Some (v_candidateEmail v)
  /\ v_candidateEmail v <> "" /\ is_email E (v_candidateEmail v) = true
  /\ candidatePhone b = v_candidatePhone v
  /\ (forall phone, v_candidatePhone v = Some phone ->
                    phone <> "" /\ code_units phone <= 50).
Proof.
  unfold validate_create. intros H.
  destruct (jobRoleId b) as [id|]; [|discriminate H].
  destruct (id =? "") eqn:Hid0; [discriminate H|].
  destruct (is_uuid E id) eqn:Hid; [|discriminate H]. cbn [negb] in H.
  destruct (candidateName b) as [name|]; [|discriminate H].
  destruct (name =? "") eqn:Hn0; [discriminate H|].
  destruct (code_units name <? 2)%nat eqn:Hn2; [discriminate H|].
  destruct (255 <? code_units name)%nat eqn:Hn255; [discriminate H|].
  destruct (candidateEmail b) as [email|]; [|discriminate H].
  destruct (email =? "") eqn:He0; [discriminate H|].
  destruct (is_email E email) eqn:Hem; [|discriminate H]. cbn [negb] in H.
  apply Nat.ltb_ge in Hn2, Hn255. apply String.eqb_neq in He0.
  destruct (candidatePhone b) as [phone|].
  - destruct (phone =? "") eqn:Hp0; [discriminate H|].
    destruct (50 <? code_units phone)%nat eqn:Hp50; [discriminate H|].
    injection H as <-. cbn. apply Nat.ltb_ge in Hp50. apply String.eqb_neq in Hp0.
    do 8 (split; [solve [auto]|]).
    intros phone' Hphone. injection Hphone as <-. auto.
  - injection H as <-. cbn. do 8 (split; [solve [auto]|]).
    intros phone' Hphone. discriminate Hphone.
Qed.

Lemma validated_submission_is_in_range_witness :
  let v := {| v_jobRoleId := Scenario.role1; v_candidateName := "Ann Lee";
              v_candidateEmail := "ann@example.com"; v_candidatePhone := None |} in
  let b := Scenario.form "Ann Lee" "ann@example.com" in
  jobRoleId b = Some (v_jobRoleId v) /\ is_uuid Scenario.calm (v_jobRoleId v) = true
  /\ candidateName b = Some (v_candidateName v)
  /\ 2 <= code_units (v_candidateName v) <= 255
  /\ candidateEmail b = Some (v_candidateEmail v)
  /\ v_candidateEmail v <> "" /\ is_email Scenario.calm (v_candidateEmail v) = true
  /\ candidatePhone b = v_candidatePhone v
  /\ (forall phone, v_candidatePhone v = Some phone ->
                    phone <> "" /\ code_units phone <= 50).
Proof.
  apply (validated_submission_is_in_range Scenario.calm
           (Scenario.form "Ann Lee" "ann@example.com")).
  vm_compute; reflexivity.
Defined.
